(** * SLJ Test (src/sljtest.c): histogram set-up, accumulation and report

    A shallow embedding of the sampling-and-analysis engine of
    [sljtest.c]: [args_parse] and the argument validity checks,
    [histo_setup], the [rdtsc] and [SLEEP_MSEC] macros, the sampling loop
    of [main] with its per-delta analysis (bin search, counters, Welford
    update, outlier ring buffer) and the report (bar lengths, cumulative
    counts, average, knee advice, outlier dump).

    Conventions.
    - [uint64_t] values are integers in [0, 2^64); every operation that can
      leave that range is wrapped with [to_u64].
    - [int] values are integers in [-2^31, 2^31); [bp->count++] is the only
      [int] operation that can overflow and is wrapped with [to_int] (the
      two's complement result the supported compilers produce).
    - [double] is IEEE binary64, i.e. the kernel's primitive [float].
    - Memory reached through [histo] is a finite map from cell index to
      [bin_t]: a write lands in the map whatever its index, so a store
      outside the [malloc]ed block [0 .. bins-1] stays visible. *)

From Stdlib Require Import ZArith Lia List Bool.
From Stdlib Require Import Floats.
From stdpp Require Import gmap list strings.

Local Open Scope Z_scope.

(** ** Machine integers *)

Definition UINT64_MAX : Z := 2 ^ 64 - 1.
Definition INT_MAX : Z := 2 ^ 31 - 1.
Definition INT_MIN : Z := - 2 ^ 31.

(** Conversion to [uint64_t] (and unsigned wrap-around). *)
Definition to_u64 (z : Z) : Z := z mod 2 ^ 64.

(** Wrap-around of an [int] result. *)
Definition to_int (z : Z) : Z := (z + 2 ^ 31) mod 2 ^ 32 - 2 ^ 31.

Definition is_u64 (z : Z) : Prop := 0 <= z <= UINT64_MAX.
Definition is_int (z : Z) : Prop := INT_MIN <= z <= INT_MAX.

(** ** Data structures *)

(** [args_t]: command line argument values ([outfile] is [None] for NULL). *)
Record args_t := mk_args {
  args_bins : Z;              (* int *)
  args_outfile : option string;
  args_knee : Z;              (* uint64_t *)
  args_min : Z;               (* uint64_t *)
  args_outbuf : Z;            (* int *)
  args_pause : Z;             (* int *)
  args_runtime : Z;           (* int *)
  args_linewid : Z            (* int *)
}.

(** [bin_t]: one entry of the histogram table. *)
Record bin_t := mk_bin {
  ub : Z;                     (* uint64_t, inclusive upper bound *)
  count : Z                   (* int *)
}.

(** [outlier_t]: one entry of the outlier buffer. *)
Record outlier_t := mk_outlier {
  when : Z;                   (* uint64_t, TSC when the outlier happened *)
  delta : Z                   (* uint64_t, size of the outlier *)
}.

Definition DEF_BINS : Z := 20.
Definition DEF_KNEE : Z := 50.
Definition DEF_MIN : Z := 10.
Definition DEF_OUTBUF : Z := 10000.
Definition DEF_PAUSE : Z := 0.
Definition DEF_RUNTIME : Z := 1.
Definition DEF_LINEWID : Z := 79.

(** The initial value of the global [args]. *)
Definition args_init : args_t :=
  mk_args DEF_BINS None DEF_KNEE DEF_MIN DEF_OUTBUF DEF_PAUSE DEF_RUNTIME
          DEF_LINEWID.


(** ** Command line *)

(** One option as [getopt_long] hands it to [args_parse]; numeric arguments
    carry the value [atoi] returned. *)
Inductive opt_t :=
| opt_b (v : Z) | opt_f (name : string) | opt_h | opt_k (v : Z)
| opt_m (v : Z) | opt_o (v : Z) | opt_p (v : Z) | opt_r (v : Z)
| opt_w (v : Z) | opt_other.

(** [args_parse]: 0 if no parse errors, 1 otherwise.  The [switch] has no
    case for ['o'], which therefore takes the [default] branch. *)
Fixpoint args_parse (opts : list opt_t) (a : args_t) : Z * args_t :=
  match opts with
  | [] => (0, a)
  | o :: rest =>
    match o with
    | opt_b v => args_parse rest
        (mk_args v (args_outfile a) (args_knee a) (args_min a) (args_outbuf a)
                 (args_pause a) (args_runtime a) (args_linewid a))
    | opt_f n => args_parse rest
        (mk_args (args_bins a) (Some n) (args_knee a) (args_min a)
                 (args_outbuf a) (args_pause a) (args_runtime a)
                 (args_linewid a))
    | opt_k v => args_parse rest
        (mk_args (args_bins a) (args_outfile a) (to_u64 v) (args_min a)
                 (args_outbuf a) (args_pause a) (args_runtime a)
                 (args_linewid a))
    | opt_m v => args_parse rest
        (mk_args (args_bins a) (args_outfile a) (args_knee a) (to_u64 v)
                 (args_outbuf a) (args_pause a) (args_runtime a)
                 (args_linewid a))
    | opt_p v => args_parse rest
        (mk_args (args_bins a) (args_outfile a) (args_knee a) (args_min a)
                 (args_outbuf a) v (args_runtime a) (args_linewid a))
    | opt_r v => args_parse rest
        (mk_args (args_bins a) (args_outfile a) (args_knee a) (args_min a)
                 (args_outbuf a) (args_pause a) v (args_linewid a))
    | opt_w v => args_parse rest
        (mk_args (args_bins a) (args_outfile a) (args_knee a) (args_min a)
                 (args_outbuf a) (args_pause a) (args_runtime a) v)
    | opt_h | opt_o _ | opt_other => (1, a)
    end
  end.

Definition pre_graph_hdr : string :=
  "Time    Ticks    Count        Percent    Cumulative  ".
Definition graph_str : string :=
  "*******************************************************************".

Definition strlen (s : string) : Z := Z.of_nat (String.length s).

(** The argument validity checks of [main]: the value of [errflag] after
    the four tests.  [args.bins/2] and [args.linewid] are [int]s compared
    with unsigned 64-bit values, hence converted with [to_u64]. *)
Definition validity_checks (errflag : Z) (a : args_t) : Z :=
  let errflag :=
    if args_knee a <=? args_min a then errflag + 1 else errflag in
  let errflag :=
    if to_u64 (args_knee a - args_min a) <? to_u64 (args_bins a ÷ 2)
    then errflag + 1 else errflag in
  let errflag :=
    if to_u64 (args_linewid a) <? strlen pre_graph_hdr + 1
    then errflag + 1 else errflag in
  let errflag :=
    if to_u64 (args_linewid a) >? strlen pre_graph_hdr + strlen graph_str
    then errflag + 1 else errflag in
  errflag.

(** ** [histo_setup] *)

(** The upper bound stored in cell [i] of the lower half:
    [args.min+(args.knee-args.min)*(bp-histo+1)/(args.bins/2)], all in
    unsigned 64-bit arithmetic. *)
Definition lower_ub (a : args_t) (i : Z) : Z :=
  to_u64 (args_min a +
          to_u64 (to_u64 (args_knee a - args_min a) * (i + 1))
          / to_u64 (args_bins a ÷ 2)).

(** The first [for] loop: cells [i .. bins/2 - 1].  [None] means the fuel
    ran out before the loop condition failed. *)
Fixpoint histo_fill_lower (fuel : nat) (a : args_t) (i : Z)
    (histo : gmap Z bin_t) : option (Z * gmap Z bin_t) :=
  match fuel with
  | O => None
  | S fuel' =>
    if i <? args_bins a ÷ 2 then
      histo_fill_lower fuel' a (i + 1) (<[i := mk_bin (lower_ub a i) 0]> histo)
    else Some (i, histo)
  end.

(** The second [for] loop: two cells per iteration, one test per
    iteration. *)
Fixpoint histo_fill_upper (fuel : nat) (a : args_t) (i : Z) (mult : Z)
    (histo : gmap Z bin_t) : option (Z * gmap Z bin_t) :=
  match fuel with
  | O => None
  | S fuel' =>
    if i <? args_bins a then
      let histo := <[i := mk_bin (to_u64 (mult * 2)) 0]> histo in
      let i := i + 1 in
      let mult := to_u64 (mult * 10) in
      let histo := <[i := mk_bin mult 0]> histo in
      histo_fill_upper fuel' a (i + 1) mult histo
    else Some (i, histo)
  end.

(** [histo[args.bins-1].ub = UINT64_MAX]: only the [ub] field of the cell
    is written; a cell never written before has an indeterminate count,
    modelled as 0. *)
Definition set_sentinel (a : args_t) (histo : gmap Z bin_t) : gmap Z bin_t :=
  let k := args_bins a - 1 in
  <[k := mk_bin UINT64_MAX (default 0 (count <$> histo !! k))]> histo.

Definition histo_fuel (a : args_t) : nat := S (Z.to_nat (args_bins a)).

(** [histo_setup], with [malloc] assumed to succeed: the cells written,
    indexed relative to [histo]. *)
Definition histo_setup (a : args_t) : option (gmap Z bin_t) :=
  match histo_fill_lower (histo_fuel a) a 0 ∅ with
  | None => None
  | Some (i, histo) =>
    match histo_fill_upper (histo_fuel a) a i (args_knee a) histo with
    | None => None
    | Some (_, histo) => Some (set_sentinel a histo)
    end
  end.

(** The [malloc]ed block: cells [0 .. n-1], when all of them were written. *)
Definition histo_block (histo : gmap Z bin_t) (n : Z) : option (list bin_t) :=
  mapM (fun i => histo !! i) (seqZ 0 n).

Definition histo_table (a : args_t) : option (list bin_t) :=
  histo_setup a ≫= fun histo => histo_block histo (args_bins a).

(** ** The analysis loop of [main] *)

(** [double] values. *)
Definition Z_to_double (z : Z) : float :=
  SF2Prim (binary_normalize prec emax z 0 false).
Definition M_E : float := 0x1.5bf0a8b145769p+1%float.

(** Entry of the outlier ring buffer as [calloc] leaves it. *)
Definition outlier_zero : outlier_t := mk_outlier 0 0.

(** The variables of [main] that the analysis loop updates, with the
    histogram block and the outlier buffer ([None] when [outbuf] is NULL;
    [obp] is kept as the index [obp - outbuf]). *)
Record state_t := mk_state {
  histo : list bin_t;
  timing_ticks : Z;           (* uint64_t *)
  delta_count : Z;            (* uint64_t *)
  delta_sum : Z;              (* uint64_t *)
  min : Z;                    (* uint64_t *)
  max : Z;                    (* uint64_t *)
  avg : float;
  svn : float;
  outbuf : option (list outlier_t);
  obp : Z;
  didwrap : bool
}.

(** [for (bp=histo; *dp>bp->ub; bp++) {}]: the index at which the scan
    stops, [None] when [bp] leaves the block. *)
Fixpoint find_bin (histo : list bin_t) (d : Z) : option nat :=
  match histo with
  | [] => None
  | b :: rest => if d >? ub b then S <$> find_bin rest d else Some O
  end.

(** [bp->count++] *)
Definition count_incr (b : bin_t) : bin_t :=
  mk_bin (ub b) (to_int (count b + 1)).

Definition count_delta (histo : list bin_t) (d : Z) : option (list bin_t) :=
  i ← find_bin histo d; Some (alter count_incr i histo).

(** The body of [if (outbuf!=NULL && *dp>args.knee)], on the buffer, the
    write index and the wrap flag. *)
Definition record_outlier (a : args_t) (t5 d : Z)
    (r : list outlier_t * Z * bool) : list outlier_t * Z * bool :=
  let '(buf, obp, didwrap) := r in
  let buf := <[Z.to_nat obp := mk_outlier t5 d]> buf in
  let obp := obp + 1 in
  if obp >=? args_outbuf a then (buf, 0, true) else (buf, obp, didwrap).

Arguments record_outlier : simpl never.

(** [if (outbuf!=NULL && *dp>args.knee) { ... }]: the buffer, the write
    index and the wrap flag after the test. *)
Definition outlier_step (a : args_t) (t5 d : Z) (s : state_t)
    : option (list outlier_t) * Z * bool :=
  match outbuf s with
  | Some buf =>
    if d >? args_knee a then
      let r := record_outlier a t5 d (buf, obp s, didwrap s) in
      (Some r.1.1, r.1.2, r.2)
    else (Some buf, obp s, didwrap s)
  | None => (None, obp s, didwrap s)
  end.

(** One iteration of [for (dp=deltas; ...)] for the delta [d] of a block
    whose sixth timestamp is [t5]. *)
Definition analyze (a : args_t) (t5 d : Z) (s : state_t) : option state_t :=
  let min' := if d <? min s then d else min s in
  let max' := if d >? max s then d else max s in
  histo' ← count_delta (histo s) d;
  let delta_count' := to_u64 (delta_count s + 1) in
  let delta_sum' := to_u64 (delta_sum s + d) in
  let last_avg := avg s in
  let avg' :=
    (avg s + (Z_to_double d - avg s) / Z_to_double delta_count')%float in
  let svn' :=
    (svn s + (Z_to_double d - avg') * (Z_to_double d - last_avg))%float in
  let r := outlier_step a t5 d s in
  Some (mk_state histo' (timing_ticks s) delta_count' delta_sum' min' max'
                 avg' svn' r.1.1 r.1.2 r.2).

(** A run of the inner loop over given (timestamp, delta) pairs. *)
Fixpoint analyze_all (a : args_t) (ds : list (Z * Z)) (s : state_t)
    : option state_t :=
  match ds with
  | [] => Some s
  | (t5, d) :: rest => s' ← analyze a t5 d s; analyze_all a rest s'
  end.

(** The ten deltas of a block of eleven timestamps [t0 .. t10]. *)
Definition block_deltas (ts : list Z) : list Z :=
  take 10 (zip_with (fun t t' => to_u64 (t' - t)) ts (tail ts)).

(** One iteration of the [do ... while] loop on the block [ts]. *)
Definition analyze_block (a : args_t) (ts : list Z) (s : state_t)
    : option state_t :=
  let t0 := ts !!! 0%nat in
  let t5 := ts !!! 5%nat in
  let t10 := ts !!! 10%nat in
  let s := mk_state (histo s) (to_u64 (timing_ticks s + to_u64 (t10 - t0)))
                    (delta_count s) (delta_sum s) (min s) (max s) (avg s)
                    (svn s) (outbuf s) (obp s) (didwrap s) in
  analyze_all a (map (fun d => (t5, d)) (block_deltas ts)) s.

(** The [do ... while] loop over the blocks sampled before the deadline;
    the body runs once before the first test. *)
Fixpoint sample_loop (a : args_t) (blocks : list (list Z)) (s : state_t)
    : option state_t :=
  match blocks with
  | [] => Some s
  | ts :: rest => s' ← analyze_block a ts s; sample_loop a rest s'
  end.

(** [outliers_setup] is called when both [args.outfile] and [args.outbuf]
    are set; [calloc] returns [args.outbuf] zeroed entries ([main] exits
    before the buffer is used when that count is negative). *)
Definition outliers_setup (a : args_t) : option (list outlier_t) :=
  match args_outfile a with
  | Some _ =>
    if args_outbuf a =? 0 then None
    else Some (replicate (Z.to_nat (args_outbuf a)) outlier_zero)
  | None => None
  end.

(** The state at the start of the sampling loop. *)
Definition state_init (a : args_t) (table : list bin_t) : state_t :=
  mk_state table 0 0 0 UINT64_MAX 0 0%float 0%float (outliers_setup a) 0 false.

(** ** The report *)

(** One printed histogram row: the bin, the cumulative count behind the
    "Cumulative" column and the number of stars. *)
Record row_t := mk_row {
  row_ub : Z;
  row_count : Z;
  row_c_count : Z;
  row_countlog : Z
}.

Inductive advice_t :=
| Recommend_min (ticks : float)
| Recommend_increasing_knee
| Recommend_decreasing_knee.

(** What [main] prints after sampling: the histogram rows, the advice
    lines, the lines written to [outfile] ([None] when no outlier buffer
    exists), and the arguments [log] was called with, in call order. *)
Record report_t := mk_report {
  rows : list row_t;
  log_calls : list float;
  advice : list advice_t;
  outfile_lines : option (list (float * float))
}.

(** [100.0*x/delta_count] for unsigned 64-bit [x] and [delta_count]. *)
Definition percent (x dc : Z) : float :=
  (100 * Z_to_double x / Z_to_double dc)%float.

Section Report.

(** libm's [log], and the conversion of a [double] to [int] (truncation
    where the value fits; the C standard leaves the other cases,
    not-a-number among them, to the platform). *)
Variable log : float -> float.
Variable double_to_int : float -> Z.

(** A value together with the arguments [log] was called with while
    computing it. *)
Definition traced (A : Type) : Type := A * list float.

Definition call_log (x : float) : traced float := (log x, [x]).

(** The argument of every [log] call of [main]: [((double)c)-M_E]. *)
Definition log_arg (c : Z) : float := (Z_to_double c - M_E)%float.

(** Maximum count in any histogram bin; [bp->count > max_count] compares
    an [int] with a [uint64_t]. *)
Fixpoint find_max_count (histo : list bin_t) (max_count : Z) : Z :=
  match histo with
  | [] => max_count
  | b :: rest =>
    find_max_count rest
      (if to_u64 (count b) >? max_count then to_u64 (count b)
       else max_count)
  end.

Definition graph_scale (a : args_t) (max_count : Z) : traced float :=
  let '(l, calls) := call_log (log_arg max_count) in
  ((Z_to_double (to_u64 (args_linewid a - strlen pre_graph_hdr)) / l)%float,
   calls).

(** The star count of a bin: computed, clamped at 0, then raised to 1
    for a nonzero count. *)
Definition countlog_of (scale : float) (c : Z) : traced Z :=
  let '(l, calls) := call_log (log_arg c) in
  let countlog := double_to_int (scale * l)%float in
  let countlog := if countlog <? 0 then 0 else countlog in
  let countlog :=
    if (countlog =? 0) && negb (c =? 0) then 1 else countlog in
  (countlog, calls).

(** The print loop from cell [i] on: rows, final [c_count] and
    [mid_count], with the [log] calls made. *)
Fixpoint print_histo (a : args_t) (scale : float) (i : Z)
    (histo : list bin_t) (c_count mid_count : Z)
    : traced (list row_t * Z * Z) :=
  match histo with
  | [] => (([], c_count, mid_count), [])
  | b :: rest =>
    let mid_count := if i =? args_bins a ÷ 2 then c_count else mid_count in
    let c_count := to_u64 (c_count + count b) in
    let '(countlog, calls) := countlog_of scale (count b) in
    let row := mk_row (ub b) (count b) c_count countlog in
    let '((rs, c, m), calls') :=
      print_histo a scale (i + 1) rest c_count mid_count in
    ((row :: rs, c, m), calls ++ calls')
  end.

(** Advice on [min]: [min<args.min || args.min<0.80*min]; the literal is
    the [double] nearest to 0.80. *)
Definition min_advice (a : args_t) (s : state_t) : list advice_t :=
  let scaled := (0x1.999999999999ap-1 * Z_to_double (min s))%float in
  if (min s <? args_min a) || (Z_to_double (args_min a) <? scaled)%float
  then [Recommend_min scaled] else [].

(** Advice on [knee] when there is no outlier buffer. *)
Definition knee_advice_histo (s : state_t) (mid_count : Z) : list advice_t :=
  let p := percent mid_count (delta_count s) in
  (if negb (bool_decide (is_Some (outbuf s))) && (p <? 90)%float
   then [Recommend_increasing_knee] else []) ++
  (if negb (bool_decide (is_Some (outbuf s))) && (99 <? p)%float
   then [Recommend_decreasing_knee] else []).

(** Advice on [knee] from the outlier buffer. *)
Definition knee_advice_outbuf (a : args_t) (s : state_t) : list advice_t :=
  match outbuf s with
  | None => []
  | Some _ =>
    if didwrap s then [Recommend_increasing_knee]
    else if obp s <? args_outbuf a ÷ 4 then [Recommend_decreasing_knee]
    else []
  end.

(** The line [fprintf]ed for an outlier: milliseconds since the start of
    the test, size in microseconds. *)
Definition outlier_line (start_tsc : Z) (tpns : float) (o : outlier_t)
    : float * float :=
  ((Z_to_double (to_u64 (when o - start_tsc)) / tpns / 1000000)%float,
   (Z_to_double (delta o) / tpns / 1000)%float).

(** [for (obp=outbuf; obp<outbuf+args.outbuf; obp++)] with its
    [continue]. *)
Fixpoint dump_outliers (start_tsc : Z) (tpns : float)
    (buf : list outlier_t) : list (float * float) :=
  match buf with
  | [] => []
  | o :: rest =>
    if when o =? 0 then dump_outliers start_tsc tpns rest
    else outlier_line start_tsc tpns o :: dump_outliers start_tsc tpns rest
  end.

(** Everything [main] does after the sampling loop; [us] is
    [stop_us - start_us]. *)
Definition report (a : args_t) (start_tsc stop_tsc us : Z) (s : state_t)
    : report_t :=
  let tpns :=
    (Z_to_double (to_u64 (stop_tsc - start_tsc)) / 1000
       / Z_to_double us)%float in
  let max_count := find_max_count (histo s) 0 in
  let '(scale, calls0) := graph_scale a max_count in
  let '((rs, _, mid_count), calls) :=
    print_histo a scale 0 (histo s) 0 0 in
  mk_report rs (calls0 ++ calls)
    (min_advice a s ++ knee_advice_histo s mid_count ++ knee_advice_outbuf a s)
    (dump_outliers start_tsc tpns <$> outbuf s).

(** What the run consumes from its environment: the options parsed, the
    timestamp blocks read before the deadline (the first one always),
    the TSC at start and stop and the elapsed microseconds. *)
Record env_t := mk_env {
  env_opts : list opt_t;
  env_block0 : list Z;
  env_blocks : list (list Z);
  env_start_tsc : Z;
  env_stop_tsc : Z;
  env_us : Z
}.

(** The outcome of [main]: [exit(1)] after the usage message, [exit(1)]
    after a failed allocation, or the report and exit status 0.  [Fault]
    stands for a run whose bin scan left the histogram block. *)
Inductive outcome_t :=
| Exit_usage
| Exit_alloc
| Fault
| Return_0 (s : state_t) (r : report_t).

(** [main].  [calloc] and [malloc] fail on a negative count, which
    converts to a size no block has, and are assumed to succeed
    otherwise, as is [fopen]. *)
Definition main (e : env_t) : outcome_t :=
  let '(errflag, a) := args_parse (env_opts e) args_init in
  let errflag := validity_checks errflag a in
  if negb (errflag =? 0) then Exit_usage
  else if bool_decide (is_Some (args_outfile a))
          && negb (args_outbuf a =? 0) && (args_outbuf a <? 0)
  then Exit_alloc
  else if args_bins a <? 0 then Exit_alloc
  else
    match histo_table a with
    | None => Fault
    | Some table =>
      match sample_loop a (env_block0 e :: env_blocks e)
                        (state_init a table) with
      | None => Fault
      | Some s =>
        Return_0 s (report a (env_start_tsc e) (env_stop_tsc e) (env_us e) s)
      end
    end.

End Report.

(** ** Specification vocabulary *)

(** [mult] after [j] iterations of the second loop. *)
Definition mult_after (mult : Z) (j : nat) : Z :=
  Nat.iter j (fun m => to_u64 (m * 10)) mult.

(** The upper bound the second loop stores [d] cells after its start. *)
Definition upper_ub (mult : Z) (d : Z) : Z :=
  let j := Z.to_nat (d / 2) in
  if Z.even d then to_u64 (mult_after mult j * 2) else mult_after mult (S j).

(** Number of iterations of the second loop of [histo_setup]. *)
Definition upper_iterations (a : args_t) : Z :=
  (args_bins a - args_bins a ÷ 2 + 1) / 2.

(** The cells [histo_setup] leaves behind, for [bins >= 1]. *)
Definition setup_cell (a : args_t) (k : Z) : option bin_t :=
  let n := args_bins a ÷ 2 in
  if decide (k = args_bins a - 1) then Some (mk_bin UINT64_MAX 0)
  else if decide (0 <= k < n) then Some (mk_bin (lower_ub a k) 0)
  else if decide (n <= k < n + 2 * upper_iterations a)
       then Some (mk_bin (upper_ub (args_knee a) (k - n)) 0)
  else None.

(** Upper bound of cell [k] of the block. *)
Definition table_ub (a : args_t) (k : Z) : Z :=
  if decide (k = args_bins a - 1) then UINT64_MAX
  else if decide (k < args_bins a ÷ 2) then lower_ub a k
  else upper_ub (args_knee a) (k - args_bins a ÷ 2).

(** Sum of the counts of a block, as an integer. *)
Definition sum_counts (histo : list bin_t) : Z :=
  foldr (fun b acc => count b + acc) 0 histo.

(** A block ends with the sentinel. *)
Definition has_sentinel (histo : list bin_t) : Prop :=
  ub <$> last histo = Some UINT64_MAX.


(** A valid Configuration: an even number of bins, at least 2, [min] below
    [knee], and at least [bins/2] values between them. *)
Definition valid_config (a : args_t) : Prop :=
  Z.even (args_bins a) = true /\ 2 <= args_bins a /\
  args_min a < args_knee a /\ args_bins a ÷ 2 <= args_knee a - args_min a.


(** The ring buffer read in ring order: from the next write position to
    the end, then from slot 0 up to the write position. *)
Definition ring_view (buf : list outlier_t) (obp : Z) : list outlier_t :=
  drop (Z.to_nat obp) buf ++ take (Z.to_nat obp) buf.

(** Recording a sequence of (timestamp, delta) outliers. *)
Definition record_outliers (a : args_t) (l : list (Z * Z))
    (r : list outlier_t * Z * bool) : list outlier_t * Z * bool :=
  foldl (fun r x => record_outlier a x.1 x.2 r) r l.

(** The deltas of a run that are outliers. *)
Definition outliers_of (a : args_t) (ds : list (Z * Z)) : list (Z * Z) :=
  filter (fun x => args_knee a < x.2) ds.

Definition as_outlier (x : Z * Z) : outlier_t := mk_outlier x.1 x.2.

Definition block_of (t0 step : Z) : list Z :=
  (fun i => t0 + step * i) <$> seqZ 0 11.

(** Cumulative count of the bins below index [k], as [c_count] holds it. *)
Definition cum_count (histo : list bin_t) (k : Z) : Z :=
  to_u64 (sum_counts (take (Z.to_nat k) histo)).

(** ** Timestamps, pauses and the printed average *)

(** Conversion to [unsigned int] / [useconds_t]. *)
Definition to_u32 (z : Z) : Z := z mod 2 ^ 32.

(** [rdtsc(x)]: [x = (uint64_t)hi << 32 | lo] for the two 32-bit halves the
    instruction leaves in [edx] and [eax]. *)
Definition rdtsc (hi lo : Z) : Z :=
  Z.lor (to_u64 (Z.shiftl hi 32)) lo.

(** A call of [sleep] (seconds) or [usleep] (microseconds), with the
    argument as the callee receives it. *)
Inductive sleep_call_t :=
| sleep (secs : Z)
| usleep (usecs : Z).

(** [SLEEP_MSEC(x)] outside Windows, for an [int] argument. *)
Definition SLEEP_MSEC (x : Z) : list sleep_call_t :=
  if x >=? 1000 then
    [sleep (to_u32 (x ÷ 1000)); usleep (to_u32 (to_int (Z.rem x 1000 * 1000)))]
  else [usleep (to_u32 (to_int (x * 1000)))].

(** [if (args.pause) SLEEP_MSEC(args.pause);] *)
Definition pause_calls (a : args_t) : list sleep_call_t :=
  if args_pause a =? 0 then [] else SLEEP_MSEC (args_pause a).

(** [delta_sum/delta_count], the average [main] prints (unsigned 64-bit
    division; [delta_count] is not 0 after a run of fewer than [2^64]
    deltas). *)
Definition average (s : state_t) : Z := delta_sum s / delta_count s.

(** [tpns], ticks per nanosecond for the duration of the test:
    [(stop_tsc-start_tsc)/1000.0/(stop_us-start_us)]. *)
Definition tpns (start_tsc stop_tsc us : Z) : float :=
  (Z_to_double (to_u64 (stop_tsc - start_tsc)) / 1000 / Z_to_double us)%float.

(** ** Further vocabulary *)

(** Options the [switch] of [args_parse] has a case for. *)
Definition opt_accepted (o : opt_t) : bool :=
  match o with
  | opt_h | opt_o _ | opt_other => false
  | _ => true
  end.

(** Microseconds a list of calls asks for. *)
Definition requested_usecs (calls : list sleep_call_t) : Z :=
  foldr (fun c acc => match c with
                      | sleep secs => secs * 1000000 + acc
                      | usleep usecs => usecs + acc
                      end) 0 calls.

(** The (timestamp, delta) pairs [analyze_block] feeds to the inner loop. *)
Definition block_samples (ts : list Z) : list (Z * Z) :=
  map (fun d => (ts !!! 5%nat, d)) (block_deltas ts).

(** The pairs of all blocks of a run, in order. *)
Definition samples_of (blocks : list (list Z)) : list (Z * Z) :=
  concat (block_samples <$> blocks).

(** A state with another value of [timing_ticks]. *)
Definition with_timing_ticks (v : Z) (s : state_t) : state_t :=
  mk_state (histo s) v (delta_count s) (delta_sum s) (min s) (max s)
           (avg s) (svn s) (outbuf s) (obp s) (didwrap s).

(** [timing_ticks] after the blocks of a run. *)
Definition ticks_of (blocks : list (list Z)) (v : Z) : Z :=
  foldl (fun v ts => to_u64 (v + to_u64 (ts !!! 10%nat - ts !!! 0%nat)))
        v blocks.

(** Entries of the outlier buffer that the dump prints. *)
Definition dumped (buf : list outlier_t) : list outlier_t :=
  filter (fun o => when o <> 0) buf.

(** * Properties *)

(** ** Machine integers *)

Section MachineIntegers.

Lemma to_u64_range z : is_u64 (to_u64 z).
Proof.
  unfold is_u64, to_u64, UINT64_MAX.
  pose proof (Z.mod_pos_bound z (2 ^ 64)). lia.
Qed.

Lemma to_u64_id z : is_u64 z -> to_u64 z = z.
Proof. unfold is_u64, to_u64, UINT64_MAX. intros. apply Z.mod_small. lia. Qed.

Lemma to_u64_add_l x y : to_u64 (to_u64 x + y) = to_u64 (x + y).
Proof. unfold to_u64. apply Zplus_mod_idemp_l. Qed.

Lemma to_u64_mul_l x y : to_u64 (to_u64 x * y) = to_u64 (x * y).
Proof. unfold to_u64. apply Zmult_mod_idemp_l. Qed.

Lemma to_int_id z : is_int z -> to_int z = z.
Proof.
  unfold is_int, to_int, INT_MIN, INT_MAX. intros.
  rewrite Z.mod_small; lia.
Qed.


End MachineIntegers.

(** ** [histo_setup]: the cells written *)

Lemma mult_after_S mult j :
  mult_after (to_u64 (mult * 10)) j = mult_after mult (S j).
Proof.
  unfold mult_after. induction j as [|j IH]; [done|].
  simpl. by rewrite IH.
Qed.

Lemma mult_after_pow mult j :
  mult_after (to_u64 mult) j = to_u64 (mult * 10 ^ Z.of_nat j).
Proof.
  induction j as [|j IH].
  - simpl. by rewrite Z.mul_1_r.
  - change (mult_after (to_u64 mult) (S j))
      with (to_u64 (mult_after (to_u64 mult) j * 10)).
    rewrite IH, to_u64_mul_l. f_equal.
    rewrite Nat2Z.inj_succ, Z.pow_succ_r by lia. lia.
Qed.

Lemma upper_ub_shift mult d :
  2 <= d -> upper_ub (to_u64 (mult * 10)) (d - 2) = upper_ub mult d.
Proof.
  intros Hd. unfold upper_ub.
  replace (Z.even (d - 2)) with (Z.even d)
    by (rewrite Z.even_sub; by destruct (Z.even d)).
  assert (Z.to_nat (d / 2) = S (Z.to_nat ((d - 2) / 2))) as ->.
  { replace d with ((d - 2) + 1 * 2) at 1 by lia.
    rewrite Z.div_add by lia.
    assert (0 <= (d - 2) / 2) by (apply Z.div_pos; lia). lia. }
  by rewrite !mult_after_S.
Qed.

Lemma histo_fill_lower_spec fuel a i histo :
  0 <= i <= args_bins a ÷ 2 ->
  (Z.to_nat (args_bins a ÷ 2 - i) < fuel)%nat ->
  exists histo',
    histo_fill_lower fuel a i histo = Some (args_bins a ÷ 2, histo') /\
    forall k, histo' !! k =
      if decide (i <= k < args_bins a ÷ 2)
      then Some (mk_bin (lower_ub a k) 0) else histo !! k.
Proof.
  revert i histo. induction fuel as [|fuel IH]; intros i histo Hi Hfuel; [lia|].
  simpl. destruct (Z.ltb_spec i (args_bins a ÷ 2)) as [Hlt|Hge].
  - destruct (IH (i + 1) (<[i:=mk_bin (lower_ub a i) 0]> histo))
      as (histo' & Hrun & Hcells); [lia|lia|].
    exists histo'. split; [done|].
    intros k. rewrite Hcells.
    destruct (decide (i = k)) as [->|Hne].
    + rewrite lookup_insert_eq. repeat case_decide; (done || lia).
    + rewrite lookup_insert_ne by done. repeat case_decide; (done || lia).
  - assert (i = args_bins a ÷ 2) as -> by lia.
    exists histo. split; [done|].
    intros k. case_decide; [lia|done].
Qed.

Lemma histo_fill_upper_spec (r : nat) : forall fuel a i mult histo,
  (r < fuel)%nat ->
  args_bins a <= i + 2 * Z.of_nat r ->
  (r <> 0%nat -> i + 2 * Z.of_nat r - 2 < args_bins a) ->
  exists histo',
    histo_fill_upper fuel a i mult histo = Some (i + 2 * Z.of_nat r, histo') /\
    forall k, histo' !! k =
      if decide (i <= k < i + 2 * Z.of_nat r)
      then Some (mk_bin (upper_ub mult (k - i)) 0) else histo !! k.
Proof.
  induction r as [|r IH]; intros fuel a i mult histo Hfuel Hup Hlow.
  - destruct fuel as [|fuel]; [lia|]. simpl.
    destruct (Z.ltb_spec i (args_bins a)); [lia|].
    exists histo. split; [f_equal; f_equal; lia|].
    intros k. case_decide; [lia|done].
  - destruct fuel as [|fuel]; [lia|]. simpl.
    destruct (Z.ltb_spec i (args_bins a)); [|lia].
    edestruct (IH fuel a (i + 1 + 1) (to_u64 (mult * 10)))
      as (histo' & Hrun & Hcells);
      [lia|lia|lia|].
    exists histo'. split; [rewrite Hrun; f_equal; f_equal; lia|].
    intros k. rewrite Hcells.
    destruct (decide (k = i)) as [->|Hne0].
    { rewrite lookup_insert_ne by lia. rewrite lookup_insert_eq.
      repeat case_decide; try lia.
      by rewrite Z.sub_diag. }
    destruct (decide (k = i + 1)) as [->|Hne1].
    { rewrite lookup_insert_eq.
      repeat case_decide; try lia.
      by replace (i + 1 - i) with 1 by lia. }
    rewrite !lookup_insert_ne by lia.
    repeat case_decide; try lia; [|done].
    replace (k - (i + 1 + 1)) with (k - i - 2) by lia.
    rewrite upper_ub_shift by lia. done.
Qed.

Lemma quot2_bounds b : 1 <= b -> 0 <= b ÷ 2 < b /\ b ÷ 2 = b / 2.
Proof.
  intros Hb. rewrite Z.quot_div_nonneg by lia.
  split; [|done]. split; [apply Z.div_pos; lia|].
  apply Z.div_lt_upper_bound; lia.
Qed.

Lemma upper_iterations_bounds a :
  1 <= args_bins a ->
  let r := upper_iterations a in
  1 <= r <= args_bins a /\
  args_bins a <= args_bins a ÷ 2 + 2 * r <= args_bins a + 1.
Proof.
  intros Hb. destruct (quot2_bounds _ Hb) as [Hn Hq]. simpl.
  unfold upper_iterations. rewrite Hq in *.
  pose proof (Z.div_mod (args_bins a) 2 ltac:(lia)).
  pose proof (Z.mod_pos_bound (args_bins a) 2 ltac:(lia)).
  pose proof (Z.div_mod (args_bins a - args_bins a / 2 + 1) 2 ltac:(lia)).
  pose proof (Z.mod_pos_bound (args_bins a - args_bins a / 2 + 1) 2 ltac:(lia)).
  lia.
Qed.

Lemma histo_setup_cells a :
  1 <= args_bins a ->
  exists histo,
    histo_setup a = Some histo /\ forall k, histo !! k = setup_cell a k.
Proof.
  intros Hb.
  destruct (quot2_bounds _ Hb) as [Hn Hq].
  destruct (upper_iterations_bounds a Hb) as [Hr Hspan].
  unfold histo_setup.
  destruct (histo_fill_lower_spec (histo_fuel a) a 0 ∅)
    as (h1 & -> & Hc1); [lia|unfold histo_fuel; lia|].
  destruct (histo_fill_upper_spec (Z.to_nat (upper_iterations a))
              (histo_fuel a) a (args_bins a ÷ 2) (args_knee a) h1)
    as (h2 & -> & Hc2); [unfold histo_fuel; lia|lia|lia|].
  eexists. split; [done|].
  assert (h2 !! (args_bins a - 1) = Some (mk_bin
            (if decide (args_bins a - 1 < args_bins a ÷ 2)
             then lower_ub a (args_bins a - 1)
             else upper_ub (args_knee a) (args_bins a - 1 - args_bins a ÷ 2)) 0))
    as Hlast.
  { rewrite Hc2, Hc1. repeat case_decide; (done || lia). }
  intros k. unfold set_sentinel, setup_cell.
  destruct (decide (k = args_bins a - 1)) as [->|Hne].
  - rewrite lookup_insert_eq, Hlast. done.
  - rewrite lookup_insert_ne by done.
    rewrite Hc2, Hc1, lookup_empty, Z2Nat.id by lia.
    repeat case_decide; (done || lia).
Qed.

Lemma mapM_fmap_lookup {A B} (f : A -> option B) (g : A -> B) (l : list A) :
  (forall x, x ∈ l -> f x = Some (g x)) -> mapM f l = Some (g <$> l).
Proof.
  intros Hf. apply mapM_Some_2, Forall2_fmap_r, Forall2_same_length_lookup.
  split; [done|]. intros i x y Hx Hy.
  assert (x = y) as -> by congruence.
  apply Hf. by eapply list_elem_of_lookup_2.
Qed.

Lemma histo_table_eq a :
  1 <= args_bins a ->
  histo_table a =
  Some ((fun k => mk_bin (table_ub a k) 0) <$> seqZ 0 (args_bins a)).
Proof.
  intros Hb.
  destruct (quot2_bounds _ Hb) as [Hn Hq].
  destruct (upper_iterations_bounds a Hb) as [Hr Hspan].
  destruct (histo_setup_cells a Hb) as (histo & Hset & Hcells).
  unfold histo_table. rewrite Hset. simpl.
  apply mapM_fmap_lookup. intros k Hk.
  apply elem_of_seqZ in Hk.
  rewrite Hcells. unfold setup_cell, table_ub.
  repeat case_decide; (done || lia).
Qed.

Lemma histo_table_sentinel a table :
  1 <= args_bins a -> histo_table a = Some table ->
  has_sentinel table /\ Z.of_nat (length table) = args_bins a /\
  Forall (fun b => count b = 0) table.
Proof.
  intros Hb. rewrite (histo_table_eq a Hb). intros [= <-].
  split; [|split].
  - unfold has_sentinel. rewrite last_lookup, length_fmap, length_seqZ.
    rewrite list_lookup_fmap, lookup_seqZ_lt by lia. simpl.
    unfold table_ub. rewrite decide_True by lia. done.
  - rewrite length_fmap, length_seqZ. lia.
  - apply Forall_fmap, Forall_forall. intros k _. reflexivity.
Qed.

(** ** [histo_setup]: the bounds when nothing wraps *)

Lemma upper_ub_even mult j :
  0 <= j -> upper_ub mult (2 * j) = to_u64 (mult_after mult (Z.to_nat j) * 2).
Proof.
  intros Hj. unfold upper_ub.
  rewrite Z.even_mul. simpl.
  by rewrite (Z.mul_comm 2 j), Z.div_mul by lia.
Qed.

Lemma upper_ub_odd mult j :
  0 <= j -> upper_ub mult (2 * j + 1) = mult_after mult (S (Z.to_nat j)).
Proof.
  intros Hj. unfold upper_ub.
  rewrite (Z.add_comm (2 * j) 1), Z.even_add_mul_2. simpl.
  rewrite (Z.add_comm 1 (2 * j)), (Z.mul_comm 2 j), Z.div_add_l by lia.
  change (1 / 2) with 0. by rewrite Z.add_0_r.
Qed.

Lemma table_lookup a (i : nat) :
  Z.of_nat i < args_bins a ->
  ((fun k => mk_bin (table_ub a k) 0) <$> seqZ 0 (args_bins a)) !! i =
  Some (mk_bin (table_ub a (Z.of_nat i)) 0).
Proof.
  intros Hi. rewrite list_lookup_fmap, lookup_seqZ_lt by lia. done.
Qed.

Section NoOverflow.

Variable a : args_t.
Hypothesis Hvalid : valid_config a.
Hypothesis Hmin : 0 <= args_min a.
Hypothesis Hlow : (args_knee a - args_min a) * (args_bins a ÷ 2) <= UINT64_MAX.
Hypothesis Hup : args_knee a * 10 ^ (args_bins a ÷ 4) <= UINT64_MAX.

Lemma half_bins :
  args_bins a = 2 * (args_bins a ÷ 2) /\ 1 <= args_bins a ÷ 2 /\
  args_bins a ÷ 4 = (args_bins a ÷ 2) / 2.
Proof.
  destruct Hvalid as (Heven & Hb & _ & _).
  rewrite !Z.quot_div_nonneg by lia.
  apply Z.even_spec in Heven. destruct Heven as [m Hm].
  rewrite Hm. rewrite (Z.mul_comm 2 m), Z.div_mul by lia.
  split_and!; [lia|lia|].
  replace 4 with (2 * 2) by lia.
  rewrite <- Z.div_div by lia. by rewrite Z.div_mul by lia.
Qed.

Lemma knee_fits : 0 < args_knee a <= UINT64_MAX.
Proof.
  destruct Hvalid as (_ & _ & Hkm & _). split; [lia|].
  assert (1 <= 10 ^ (args_bins a ÷ 4)).
  { destruct half_bins as (_ & ? & ->).
    apply (Z.pow_le_mono_r 10 0); [lia|]. apply Z.div_pos; lia. }
  nia.
Qed.

Lemma lower_ub_exact i :
  0 <= i < (args_bins a ÷ 2) ->
  lower_ub a i =
  args_min a + (args_knee a - args_min a) * (i + 1) / (args_bins a ÷ 2).
Proof.
  intros Hi. destruct Hvalid as (_ & _ & Hkm & Hsteps).
  pose proof knee_fits as Hk.
  unfold lower_ub.
  assert (forall z, 0 <= z <= UINT64_MAX -> to_u64 z = z) as Hid
    by (intros; by apply to_u64_id).
  rewrite (Hid (args_knee a - args_min a)) by lia.
  rewrite (Hid ((args_knee a - args_min a) * (i + 1))) by nia.
  rewrite (Hid (args_bins a ÷ 2)) by nia.
  apply Hid.
  assert (0 <= (args_knee a - args_min a) * (i + 1) / (args_bins a ÷ 2)
          <= args_knee a - args_min a).
  { split; [apply Z.div_pos; nia|].
    apply Z.div_le_upper_bound; nia. }
  lia.
Qed.

Lemma lower_ub_increasing i :
  0 <= i -> i + 1 < (args_bins a ÷ 2) -> lower_ub a i < lower_ub a (i + 1).
Proof.
  intros Hi Hi'. destruct Hvalid as (_ & _ & Hkm & Hsteps).
  rewrite !lower_ub_exact by lia.
  assert ((args_knee a - args_min a) * (i + 1) / (args_bins a ÷ 2) + 1
          <= (args_knee a - args_min a) * (i + 1 + 1) / (args_bins a ÷ 2)); [|lia].
  rewrite <- (Z.div_add _ 1 (args_bins a ÷ 2)) by lia.
  apply Z.div_le_mono; nia.
Qed.

Lemma lower_ub_last : lower_ub a ((args_bins a ÷ 2) - 1) = args_knee a.
Proof.
  destruct half_bins as (_ & Hn & _).
  rewrite lower_ub_exact by lia.
  replace ((args_bins a ÷ 2) - 1 + 1) with (args_bins a ÷ 2) by lia.
  rewrite Z.div_mul by lia. lia.
Qed.

Lemma mult_after_exact (j : nat) :
  args_knee a * 10 ^ Z.of_nat j <= UINT64_MAX ->
  mult_after (args_knee a) j = args_knee a * 10 ^ Z.of_nat j.
Proof.
  intros Hfit. pose proof knee_fits as Hk.
  rewrite <- (to_u64_id (args_knee a)) at 1 by (unfold is_u64; lia).
  rewrite mult_after_pow. apply to_u64_id. unfold is_u64.
  split; [|done]. apply Z.mul_nonneg_nonneg; [lia|].
  apply Z.pow_nonneg. lia.
Qed.

Lemma pow10_le j k : 0 <= j <= k -> 10 ^ j <= 10 ^ k.
Proof. intros. apply Z.pow_le_mono_r; lia. Qed.

Lemma upper_ub_exact_even j :
  0 <= j -> 2 * j + 2 <= (args_bins a ÷ 2) ->
  upper_ub (args_knee a) (2 * j) = 2 * args_knee a * 10 ^ j.
Proof.
  intros Hj Hd. pose proof knee_fits as Hk.
  destruct half_bins as (_ & _ & Hq). pose proof Hup as Hup'.
  rewrite Hq in Hup'.
  assert (j + 1 <= (args_bins a ÷ 2) / 2) as Hjn
    by (apply Z.div_le_lower_bound; lia).
  pose proof (pow10_le (j + 1) ((args_bins a ÷ 2) / 2) ltac:(lia)) as Hpow.
  rewrite Z.pow_add_r in Hpow by lia.
  assert (0 < 10 ^ j) by (apply Z.pow_pos_nonneg; lia).
  rewrite upper_ub_even by done.
  rewrite mult_after_exact; rewrite Z2Nat.id by done; [|nia].
  rewrite to_u64_id; [lia|]. unfold is_u64. nia.
Qed.

Lemma upper_ub_exact_odd j :
  0 <= j -> 2 * j + 3 <= (args_bins a ÷ 2) ->
  upper_ub (args_knee a) (2 * j + 1) = args_knee a * 10 ^ (j + 1).
Proof.
  intros Hj Hd. pose proof knee_fits as Hk.
  destruct half_bins as (_ & _ & Hq). pose proof Hup as Hup'.
  rewrite Hq in Hup'.
  assert (j + 1 <= (args_bins a ÷ 2) / 2) as Hjn
    by (apply Z.div_le_lower_bound; lia).
  pose proof (pow10_le (j + 1) ((args_bins a ÷ 2) / 2) ltac:(lia)) as Hpow.
  assert (0 < 10 ^ (j + 1)) by (apply Z.pow_pos_nonneg; lia).
  rewrite upper_ub_odd by done.
  rewrite mult_after_exact;
    replace (Z.of_nat (S (Z.to_nat j))) with (j + 1) by lia; [done|nia].
Qed.

Lemma table_ub_increasing k :
  0 <= k -> k + 1 < args_bins a - 1 -> table_ub a k < table_ub a (k + 1).
Proof.
  intros Hk0 Hk1. pose proof knee_fits as Hk.
  destruct half_bins as (Hbins & Hn & _).
  unfold table_ub.
  destruct (decide (k = args_bins a - 1)); [lia|].
  destruct (decide (k + 1 = args_bins a - 1)); [lia|].
  destruct (decide (k + 1 < (args_bins a ÷ 2))) as [Hlow'|Hhigh].
  { rewrite decide_True by lia. by apply lower_ub_increasing. }
  destruct (decide (k < (args_bins a ÷ 2))) as [Hedge|Hupper].
  { assert (k = (args_bins a ÷ 2) - 1) as -> by lia.
    rewrite lower_ub_last.
    replace ((args_bins a ÷ 2) - 1 + 1 - (args_bins a ÷ 2)) with (2 * 0) by lia.
    rewrite upper_ub_exact_even by lia. simpl. lia. }
  destruct (Z.even (k - (args_bins a ÷ 2))) eqn:Hpar.
  - apply Z.even_spec in Hpar. destruct Hpar as [j Hj].
    replace (k + 1 - (args_bins a ÷ 2)) with (2 * j + 1) by lia. rewrite Hj.
    rewrite upper_ub_exact_even, upper_ub_exact_odd by lia.
    rewrite Z.pow_add_r by lia.
    assert (0 < 10 ^ j) by (apply Z.pow_pos_nonneg; lia). nia.
  - assert (Z.odd (k - (args_bins a ÷ 2)) = true) as Hodd
      by (rewrite <- Z.negb_even, Hpar; done).
    apply Z.odd_spec in Hodd. destruct Hodd as [j Hj].
    replace (k + 1 - (args_bins a ÷ 2)) with (2 * (j + 1)) by lia. rewrite Hj.
    rewrite upper_ub_exact_even, upper_ub_exact_odd by lia.
    assert (0 < 10 ^ (j + 1)) by (apply Z.pow_pos_nonneg; lia). nia.
Qed.

End NoOverflow.

(** Whenever the second loop has an odd number of cells to fill, its last
    iteration stores into the cell just past the block. *)
Lemma histo_setup_overrun a :
  1 <= args_bins a -> Z.odd (args_bins a - args_bins a ÷ 2) = true ->
  exists histo,
    histo_setup a = Some histo /\
    histo !! args_bins a =
      Some (mk_bin (upper_ub (args_knee a) (args_bins a - args_bins a ÷ 2)) 0).
Proof.
  intros Hb Hodd.
  destruct (histo_setup_cells a Hb) as (histo & Hset & Hcells).
  exists histo. split; [done|]. rewrite Hcells.
  destruct (quot2_bounds _ Hb) as [Hn Hq].
  apply Z.odd_spec in Hodd. destruct Hodd as [j Hj].
  assert (upper_iterations a = j + 1) as Hr.
  { unfold upper_iterations. rewrite Hj.
    replace (2 * j + 1 + 1) with ((j + 1) * 2) by lia.
    by rewrite Z.div_mul by lia. }
  unfold setup_cell. rewrite Hr.
  rewrite decide_False by lia. rewrite decide_False by lia.
  rewrite decide_True by lia. done.
Qed.

(** C1 fails on the code.  [-b 10] is a valid Configuration, and
    [histo_setup] stores [50 * 10^3] into cell 10 of a block of ten
    cells. *)
Theorem histo_setup_writes_past_block :
  let a := mk_args 10 None 50 10 10000 0 1 79 in
  valid_config a /\
  exists histo,
    histo_setup a = Some histo /\
    histo !! args_bins a = Some (mk_bin 50000 0).
Proof.
  intros a. split.
  - unfold valid_config. split_and!; by vm_compute.
  - eexists. split; [by vm_compute|]. by vm_compute.
Qed.

(** For a valid Configuration whose bin count is a multiple of 4,
    [histo_setup] writes exactly the cells [0 .. bins-1]. *)
Theorem histo_setup_in_block (a : args_t) :
  valid_config a -> args_bins a mod 4 = 0 ->
  exists histo,
    histo_setup a = Some histo /\
    forall k, is_Some (histo !! k) <-> 0 <= k < args_bins a.
Proof.
  intros (Heven & Hb & _ & _) Hmod.
  assert (1 <= args_bins a) as Hb1 by lia.
  destruct (histo_setup_cells a Hb1) as (histo & Hset & Hcells).
  exists histo. split; [done|]. intros k. rewrite Hcells.
  destruct (quot2_bounds _ Hb1) as [Hn Hq].
  pose proof (Z.div_mod (args_bins a) 4 ltac:(lia)) as Hdm.
  rewrite Hmod, Z.add_0_r in Hdm.
  assert (args_bins a ÷ 2 = 2 * (args_bins a / 4)) as Hhalf.
  { rewrite Hq. rewrite Hdm at 1.
    replace (4 * (args_bins a / 4)) with (2 * (args_bins a / 4) * 2) by lia.
    by rewrite Z.div_mul by lia. }
  assert (upper_iterations a = args_bins a / 4) as Hr.
  { unfold upper_iterations. rewrite Hhalf.
    replace (args_bins a - 2 * (args_bins a / 4) + 1)
      with (1 + (args_bins a / 4) * 2) by lia.
    rewrite Z.div_add by lia. done. }
  unfold setup_cell. rewrite Hr.
  repeat case_decide; split; intros Hk; try lia; try done;
    by destruct Hk.
Qed.

(** The default Configuration stays inside its block. *)
Lemma histo_setup_in_block_witness :
  exists histo,
    histo_setup args_init = Some histo /\
    forall k, is_Some (histo !! k) <-> 0 <= k < args_bins args_init.
Proof.
  apply (histo_setup_in_block args_init).
  - unfold valid_config. split_and!; by vm_compute.
  - reflexivity.
Defined.

(** For a valid Configuration whose products stay within 64 bits, the
    table has [bins] entries with zero counts: entry [i] of the lower half
    is [min + (knee-min)*(i+1)/(bins/2)], the upper half alternates
    [2 * knee * 10^j] and [knee * 10^(j+1)], the last entry is
    [UINT64_MAX], and the bounds before the sentinel increase strictly. *)
Theorem histo_table_bounds (a : args_t) :
  valid_config a -> 0 <= args_min a ->
  (args_knee a - args_min a) * (args_bins a ÷ 2) <= UINT64_MAX ->
  args_knee a * 10 ^ (args_bins a ÷ 4) <= UINT64_MAX ->
  exists table,
    histo_table a = Some table /\
    Z.of_nat (length table) = args_bins a /\
    Forall (fun b => count b = 0) table /\
    (forall i, 0 <= i < args_bins a ÷ 2 ->
       ub <$> table !! Z.to_nat i =
       Some (args_min a +
             (args_knee a - args_min a) * (i + 1) / (args_bins a ÷ 2))) /\
    (forall j, 0 <= j -> args_bins a ÷ 2 + 2 * j < args_bins a - 1 ->
       ub <$> table !! Z.to_nat (args_bins a ÷ 2 + 2 * j) =
       Some (2 * args_knee a * 10 ^ j)) /\
    (forall j, 0 <= j -> args_bins a ÷ 2 + 2 * j + 1 < args_bins a - 1 ->
       ub <$> table !! Z.to_nat (args_bins a ÷ 2 + 2 * j + 1) =
       Some (args_knee a * 10 ^ (j + 1))) /\
    ub <$> last table = Some UINT64_MAX /\
    (forall (i : nat) b b',
       Z.of_nat i + 1 < args_bins a - 1 ->
       table !! i = Some b -> table !! S i = Some b' -> ub b < ub b').
Proof.
  intros Hvalid Hmin Hlow Hup.
  destruct (half_bins a Hvalid) as (Hbins & Hn & _).
  assert (1 <= args_bins a) as Hb1 by lia.
  pose proof (histo_table_eq a Hb1) as Htab.
  destruct (histo_table_sentinel a _ Hb1 Htab) as (Hsent & Hsize & Hzero).
  eexists. split; [exact Htab|]. split_and!; try done.
  - intros i Hi. rewrite table_lookup by lia. simpl. f_equal.
    rewrite Z2Nat.id by lia. unfold table_ub.
    rewrite decide_False by lia. rewrite decide_True by lia.
    by apply lower_ub_exact.
  - intros j Hj Hk. rewrite table_lookup by lia. simpl. f_equal.
    rewrite Z2Nat.id by lia. unfold table_ub.
    rewrite decide_False by lia. rewrite decide_False by lia.
    replace (args_bins a ÷ 2 + 2 * j - args_bins a ÷ 2) with (2 * j) by lia.
    apply upper_ub_exact_even; (done || lia).
  - intros j Hj Hk. rewrite table_lookup by lia. simpl. f_equal.
    rewrite Z2Nat.id by lia. unfold table_ub.
    rewrite decide_False by lia. rewrite decide_False by lia.
    replace (args_bins a ÷ 2 + 2 * j + 1 - args_bins a ÷ 2)
      with (2 * j + 1) by lia.
    apply upper_ub_exact_odd; (done || lia).
  - intros i b b' Hi. rewrite !table_lookup by lia.
    intros [= <-] [= <-]. simpl.
    replace (Z.of_nat (S i)) with (Z.of_nat i + 1) by lia.
    apply table_ub_increasing; (done || lia).
Qed.

(** The default Configuration. *)
Lemma histo_table_bounds_witness :
  exists table,
    histo_table args_init = Some table /\
    Z.of_nat (length table) = 20 /\
    Forall (fun b => count b = 0) table /\
    (forall i, 0 <= i < 20 ÷ 2 ->
       ub <$> table !! Z.to_nat i =
       Some (10 + (50 - 10) * (i + 1) / (20 ÷ 2))) /\
    (forall j, 0 <= j -> 20 ÷ 2 + 2 * j < 20 - 1 ->
       ub <$> table !! Z.to_nat (20 ÷ 2 + 2 * j) = Some (2 * 50 * 10 ^ j)) /\
    (forall j, 0 <= j -> 20 ÷ 2 + 2 * j + 1 < 20 - 1 ->
       ub <$> table !! Z.to_nat (20 ÷ 2 + 2 * j + 1) =
       Some (50 * 10 ^ (j + 1))) /\
    ub <$> last table = Some UINT64_MAX /\
    (forall (i : nat) b b',
       Z.of_nat i + 1 < 20 - 1 ->
       table !! i = Some b -> table !! S i = Some b' -> ub b < ub b').
Proof.
  apply (histo_table_bounds args_init).
  - unfold valid_config. split_and!; by vm_compute.
  - by vm_compute.
  - by vm_compute.
  - by vm_compute.
Defined.

(** With 80 bins the multiplier wraps around 2^64 and the bounds stop
    increasing: entry 76 is below entry 75. *)
Lemma histo_table_wraps :
  let a := mk_args 80 None 50 10 10000 0 1 79 in
  valid_config a /\
  exists table b b',
    histo_table a = Some table /\
    table !! 75%nat = Some b /\ table !! 76%nat = Some b' /\
    ub b' < ub b.
Proof.
  intros a. split.
  - unfold valid_config. split_and!; by vm_compute.
  - eexists _, _, _. split_and!; [by vm_compute|reflexivity|reflexivity|].
    by vm_compute.
Qed.

(** ** The bin scan and the counters *)

Lemma find_bin_lt histo d i :
  find_bin histo d = Some i -> (i < length histo)%nat.
Proof.
  revert i. induction histo as [|b rest IH]; intros i; simpl; [done|].
  destruct (d >? ub b).
  - destruct (find_bin rest d) as [j|]; [|done].
    intros [= <-]. specialize (IH j eq_refl). lia.
  - intros [= <-]. lia.
Qed.

Lemma find_bin_first histo d i :
  find_bin histo d = Some i ->
  (exists b, histo !! i = Some b /\ d <= ub b) /\
  (forall j b, (j < i)%nat -> histo !! j = Some b -> ub b < d).
Proof.
  revert i. induction histo as [|b rest IH]; intros i; simpl; [done|].
  destruct (Z.gtb_spec d (ub b)) as [Hgt|Hle].
  - destruct (find_bin rest d) as [k|]; [|done].
    intros [= <-]. destruct (IH k eq_refl) as [Hat Hbefore].
    split; [done|].
    intros [|j] b' Hj; simpl; [intros [= <-]; lia|].
    apply Hbefore. lia.
  - intros [= <-]. split; [exists b; done|]. intros j b' Hj. lia.
Qed.

Lemma find_bin_sentinel histo d :
  d <= UINT64_MAX -> has_sentinel histo -> is_Some (find_bin histo d).
Proof.
  unfold has_sentinel. intros Hd.
  induction histo as [|b rest IH]; simpl; [done|].
  intros Hlast.
  destruct (Z.gtb_spec d (ub b)) as [Hgt|Hle]; [|done].
  destruct rest as [|b' rest].
  - simpl in Hlast. injection Hlast as Hub. lia.
  - destruct IH as [i ->]; [done|]. done.
Qed.

Lemma has_sentinel_alter histo i :
  has_sentinel histo -> has_sentinel (alter count_incr i histo).
Proof.
  unfold has_sentinel. rewrite !last_lookup, length_alter.
  destruct (decide (i = pred (length histo))) as [->|Hne].
  - rewrite list_lookup_alter_eq.
    by destruct (histo !! pred (length histo)).
  - by rewrite list_lookup_alter_ne.
Qed.













(** C4.  For every delta and every bin table whose last entry has upper
    bound [UINT64_MAX], the unguarded scan stops at an index inside the
    table: it returns the first bin whose upper bound is at least the
    delta, and never leaves the block. *)
Theorem find_bin_in_table (histo : list bin_t) (d : Z) :
  is_u64 d -> has_sentinel histo ->
  exists i b,
    find_bin histo d = Some i /\ (i < length histo)%nat /\
    histo !! i = Some b /\ d <= ub b /\
    forall j b', (j < i)%nat -> histo !! j = Some b' -> ub b' < d.
Proof.
  intros [_ Hd] Hs.
  destruct (find_bin_sentinel histo d Hd Hs) as [i Hi].
  destruct (find_bin_first histo d i Hi) as [(b & Hb & Hle) Hbefore].
  exists i, b. split_and!; try done. by eapply find_bin_lt.
Qed.

(** C4 at a two-bin table and the largest delta. *)
Lemma find_bin_in_table_witness :
  exists i b,
    find_bin [mk_bin 50 0; mk_bin UINT64_MAX 0] UINT64_MAX = Some i /\
    (i < 2)%nat /\
    [mk_bin 50 0; mk_bin UINT64_MAX 0] !! i = Some b /\ UINT64_MAX <= ub b /\
    forall j b', (j < i)%nat ->
      [mk_bin 50 0; mk_bin UINT64_MAX 0] !! j = Some b' -> ub b' < UINT64_MAX.
Proof.
  apply (find_bin_in_table [mk_bin 50 0; mk_bin UINT64_MAX 0] UINT64_MAX).
  - unfold is_u64, UINT64_MAX. lia.
  - reflexivity.
Defined.




(** ** The outlier ring buffer *)

Lemma record_outlier_step a t5 d buf p w :
  Z.of_nat (length buf) = args_outbuf a -> 0 <= p < args_outbuf a ->
  let r := record_outlier a t5 d (buf, p, w) in
  Z.of_nat (length r.1.1) = args_outbuf a /\
  r.1.2 = (p + 1) mod args_outbuf a /\
  r.2 = w || (args_outbuf a <=? p + 1) /\
  ring_view r.1.1 r.1.2 = drop 1 (ring_view buf p ++ [mk_outlier t5 d]).
Proof.
  intros Hlen Hp. unfold record_outlier.
  assert (Z.to_nat p < length buf)%nat as Hlt by lia.
  destruct (lookup_lt_is_Some_2 _ _ Hlt) as [old Hold].
  set (x := mk_outlier t5 d).
  assert (drop 1 (ring_view buf p ++ [x]) =
          drop (S (Z.to_nat p)) (<[Z.to_nat p:=x]> buf) ++
          take (S (Z.to_nat p)) (<[Z.to_nat p:=x]> buf)) as Hview.
  { unfold ring_view. rewrite (drop_S _ _ _ Hold). simpl. rewrite drop_0.
    rewrite drop_insert_lt by lia.
    rewrite (take_S_r _ _ x) by (by apply list_lookup_insert_eq).
    rewrite take_insert_ge by lia. by rewrite <- app_assoc. }
  destruct (Z.geb_spec (p + 1) (args_outbuf a)) as [Hge|Hless]; simpl.
  - assert (p + 1 = args_outbuf a) as Heq by lia.
    split_and!.
    + by rewrite length_insert.
    + rewrite Heq, Z_mod_same_full. done.
    + rewrite (proj2 (Z.leb_le _ _)) by lia. by rewrite orb_true_r.
    + rewrite Hview. unfold ring_view.
      change (Z.to_nat 0) with 0%nat. rewrite drop_0, take_0, app_nil_r.
      rewrite drop_ge by (rewrite length_insert; lia).
      rewrite take_ge by (rewrite length_insert; lia). done.
  - split_and!.
    + by rewrite length_insert.
    + rewrite Z.mod_small; lia.
    + rewrite (proj2 (Z.leb_gt _ _)) by lia. by rewrite orb_false_r.
    + rewrite Hview. unfold ring_view.
      replace (Z.to_nat (p + 1)) with (S (Z.to_nat p)) by lia. done.
Qed.

Lemma record_outliers_spec a l : forall buf p w,
  Z.of_nat (length buf) = args_outbuf a -> 0 <= p < args_outbuf a ->
  let r := record_outliers a l (buf, p, w) in
  Z.of_nat (length r.1.1) = args_outbuf a /\
  r.1.2 = (p + Z.of_nat (length l)) mod args_outbuf a /\
  r.2 = w || (args_outbuf a <=? p + Z.of_nat (length l)) /\
  ring_view r.1.1 r.1.2 =
    drop (length l) (ring_view buf p ++ (as_outlier <$> l)).
Proof.
  induction l as [|[t5 d] l IH]; intros buf p w Hlen Hp.
  - simpl. split_and!.
    + done.
    + rewrite Z.add_0_r, Z.mod_small; lia.
    + rewrite Z.add_0_r, (proj2 (Z.leb_gt _ _)) by lia. by rewrite orb_false_r.
    + by rewrite drop_0, app_nil_r.
  - pose proof (record_outlier_step a t5 d buf p w Hlen Hp) as Hstep.
    change (record_outliers a ((t5, d) :: l) (buf, p, w))
      with (record_outliers a l (record_outlier a t5 d (buf, p, w))).
    destruct (record_outlier a t5 d (buf, p, w)) as [[buf1 p1] w1].
    simpl in Hstep. destruct Hstep as (Hlen1 & Hp1 & Hw1 & Hview1).
    assert (0 <= p1 < args_outbuf a) as Hp1r
      by (rewrite Hp1; apply Z.mod_pos_bound; lia).
    destruct (IH buf1 p1 w1 Hlen1 Hp1r) as (Hlen2 & Hp2 & Hw2 & Hview2).
    simpl length. rewrite Nat2Z.inj_succ.
    split_and!.
    + done.
    + rewrite Hp2, Hp1, Zplus_mod_idemp_l. f_equal. lia.
    + rewrite Hw2, Hw1, Hp1.
      destruct (Z.leb_spec (args_outbuf a) (p + 1)) as [Hfull|Hroom].
      * rewrite !orb_true_r. simpl. symmetry.
        rewrite orb_true_iff. right. apply Z.leb_le. lia.
      * rewrite orb_false_r, Z.mod_small by lia.
        f_equal. f_equal. lia.
    + rewrite Hview2, Hview1.
      rewrite <- drop_app_le by (rewrite length_app; simpl; lia).
      rewrite drop_drop, <- app_assoc. done.
Qed.

Lemma analyze_total a t5 d s :
  has_sentinel (histo s) -> d <= UINT64_MAX ->
  exists s', analyze a t5 d s = Some s' /\ has_sentinel (histo s') /\
             (outbuf s', obp s', didwrap s') = outlier_step a t5 d s.
Proof.
  intros Hs Hd. destruct (find_bin_sentinel _ d Hd Hs) as [i Hi].
  unfold analyze, count_delta. rewrite Hi. simpl.
  eexists. split; [done|]. simpl. split; [by apply has_sentinel_alter|].
  by destruct (outlier_step a t5 d s) as [[? ?] ?].
Qed.

(** The outlier buffer after a run holds what recording the outliers of
    the run, in order, leaves in it. *)
Lemma analyze_all_outliers a ds : forall s buf,
  has_sentinel (histo s) -> Forall (fun x => is_u64 x.2) ds ->
  outbuf s = Some buf ->
  exists s', analyze_all a ds s = Some s' /\
    let r := record_outliers a (outliers_of a ds) (buf, obp s, didwrap s) in
    outbuf s' = Some r.1.1 /\ obp s' = r.1.2 /\ didwrap s' = r.2.
Proof.
  induction ds as [|[t5 d] ds IH]; intros s buf Hs Hds Hbuf.
  - exists s. by split.
  - inversion Hds as [|? ? [_ Hd] Hds']; subst. simpl in Hd.
    destruct (analyze_total a t5 d s Hs Hd) as (s1 & Hrun1 & Hs1 & Hring).
    simpl. rewrite Hrun1. simpl.
    unfold outliers_of. rewrite filter_cons. simpl.
    unfold outlier_step in Hring. rewrite Hbuf in Hring.
    destruct (Z.gtb_spec d (args_knee a)) as [Hout|Hin].
    + rewrite decide_True by lia.
      injection Hring as Hb1 Hp1 Hw1.
      destruct (IH s1 _ Hs1 Hds' Hb1) as (s' & Hrun & Hres).
      exists s'. split; [done|].
      rewrite Hp1, Hw1 in Hres.
      change (record_outliers a ((t5, d) :: filter (fun x => args_knee a < x.2) ds)
                (buf, obp s, didwrap s))
        with (record_outliers a (filter (fun x => args_knee a < x.2) ds)
                (record_outlier a t5 d (buf, obp s, didwrap s))).
      by destruct (record_outlier a t5 d (buf, obp s, didwrap s)) as [[? ?] ?].
    + rewrite decide_False by lia.
      injection Hring as Hb1 Hp1 Hw1.
      destruct (IH s1 _ Hs1 Hds' Hb1) as (s' & Hrun & Hres).
      exists s'. split; [done|]. by rewrite Hp1, Hw1 in Hres.
Qed.

Lemma outliers_setup_enabled a :
  is_Some (args_outfile a) -> 0 < args_outbuf a ->
  outliers_setup a = Some (replicate (Z.to_nat (args_outbuf a)) outlier_zero).
Proof.
  intros [f Hf] Hc. unfold outliers_setup. rewrite Hf.
  by rewrite (proj2 (Z.eqb_neq _ _)) by lia.
Qed.

Lemma run_ring a ds table :
  is_Some (args_outfile a) -> 0 < args_outbuf a ->
  has_sentinel table -> Forall (fun x => is_u64 x.2) ds ->
  exists s buf,
    analyze_all a ds (state_init a table) = Some s /\
    outbuf s = Some buf /\
    Z.of_nat (length buf) = args_outbuf a /\
    obp s = Z.of_nat (length (outliers_of a ds)) mod args_outbuf a /\
    didwrap s = (args_outbuf a <=? Z.of_nat (length (outliers_of a ds))) /\
    ring_view buf (obp s) =
      drop (length (outliers_of a ds))
           (replicate (Z.to_nat (args_outbuf a)) outlier_zero
            ++ (as_outlier <$> outliers_of a ds)).
Proof.
  intros Hfile Hcap Hs Hds.
  pose proof (outliers_setup_enabled a Hfile Hcap) as Hsetup.
  destruct (analyze_all_outliers a ds (state_init a table) _ Hs Hds Hsetup)
    as (s & Hrun & Hbuf & Hp & Hw).
  simpl in Hbuf, Hp, Hw.
  pose proof (record_outliers_spec a (outliers_of a ds)
                (replicate (Z.to_nat (args_outbuf a)) outlier_zero) 0 false)
    as Hspec.
  simpl in Hspec.
  destruct Hspec as (Hlen & Hp' & Hw' & Hview);
    [rewrite length_replicate; lia|lia|].
  eexists s, _. split_and!; try done.
  - by rewrite Hp.
  - by rewrite Hw.
  - rewrite Hp, Hview. unfold ring_view at 1.
    change (Z.to_nat 0) with 0%nat. by rewrite drop_0, take_0, app_nil_r.
Qed.

(** C6.  With outlier capture enabled and capacity [args.outbuf], a run
    that records capacity + k outliers, k > 0, leaves a buffer of exactly
    capacity entries, all of them recorded outliers, with [didwrap] set;
    read in ring order from the next write position they are the last
    capacity outliers in the order they were recorded. *)
Theorem ring_keeps_latest (a : args_t) (ds : list (Z * Z))
    (table : list bin_t) (k : Z) :
  is_Some (args_outfile a) -> 0 < args_outbuf a ->
  has_sentinel table -> Forall (fun x => is_u64 x.2) ds ->
  0 < k ->
  Z.of_nat (length (outliers_of a ds)) = args_outbuf a + k ->
  exists s buf,
    analyze_all a ds (state_init a table) = Some s /\
    outbuf s = Some buf /\
    Z.of_nat (length buf) = args_outbuf a /\
    didwrap s = true /\
    0 <= obp s < args_outbuf a /\
    drop (Z.to_nat (obp s)) buf ++ take (Z.to_nat (obp s)) buf =
      as_outlier <$> drop (Z.to_nat k) (outliers_of a ds).
Proof.
  intros Hfile Hcap Hs Hds Hk Hn.
  destruct (run_ring a ds table Hfile Hcap Hs Hds)
    as (s & buf & Hrun & Hbuf & Hlen & Hp & Hw & Hview).
  exists s, buf. split_and!; try done.
  - rewrite Hw. apply Z.leb_le. lia.
  - rewrite Hp. apply Z.mod_pos_bound. lia.
  - rewrite Hp. apply Z.mod_pos_bound. lia.
  - fold (ring_view buf (obp s)). rewrite Hview.
    replace (length (outliers_of a ds))
      with (Z.to_nat (args_outbuf a) + Z.to_nat k)%nat by lia.
    rewrite <- drop_drop.
    rewrite drop_app_length' by (rewrite length_replicate; lia).
    by rewrite fmap_drop.
Qed.

(** C6 at capacity 3 and five outliers among six deltas. *)
Lemma ring_keeps_latest_witness :
  let a := mk_args 4 (Some "out") 50 10 3 0 1 79 in
  let ds := [(1, 100); (2, 20); (3, 300); (4, 400); (5, 500); (6, 600)] in
  let table := [mk_bin 30 0; mk_bin 50 0; mk_bin 100 0; mk_bin UINT64_MAX 0] in
  exists s buf,
    analyze_all a ds (state_init a table) = Some s /\
    outbuf s = Some buf /\
    Z.of_nat (length buf) = 3 /\
    didwrap s = true /\
    0 <= obp s < 3 /\
    drop (Z.to_nat (obp s)) buf ++ take (Z.to_nat (obp s)) buf =
      as_outlier <$> drop (Z.to_nat 2) (outliers_of a ds).
Proof.
  intros a ds table.
  apply (ring_keeps_latest a ds table 2).
  - by eexists.
  - by vm_compute.
  - reflexivity.
  - repeat constructor; by vm_compute.
  - lia.
  - reflexivity.
Defined.

(** C7 (as amended).  With outlier capture enabled, [didwrap] is set after
    a run exactly when at least capacity outliers were recorded: the
    recording that fills the last free slot moves the write position back
    to slot 0 and sets the flag, before any slot is overwritten. *)
Theorem didwrap_iff_full (a : args_t) (ds : list (Z * Z))
    (table : list bin_t) :
  is_Some (args_outfile a) -> 0 < args_outbuf a ->
  has_sentinel table -> Forall (fun x => is_u64 x.2) ds ->
  exists s,
    analyze_all a ds (state_init a table) = Some s /\
    (didwrap s = true <->
     args_outbuf a <= Z.of_nat (length (outliers_of a ds))).
Proof.
  intros Hfile Hcap Hs Hds.
  destruct (run_ring a ds table Hfile Hcap Hs Hds)
    as (s & buf & Hrun & _ & _ & _ & Hw & _).
  exists s. split; [done|]. rewrite Hw. apply Z.leb_le.
Qed.

(** C7 (as amended) at capacity 5 and one outlier of 1000000 ticks:
    [didwrap] stays clear. *)
Lemma didwrap_iff_full_witness :
  let a := mk_args 4 (Some "out") 50 10 5 0 1 79 in
  let ds := [(7, 1000000)] in
  let table := [mk_bin 30 0; mk_bin 50 0; mk_bin 100 0; mk_bin UINT64_MAX 0] in
  exists s,
    analyze_all a ds (state_init a table) = Some s /\
    (didwrap s = true <-> 5 <= Z.of_nat (length (outliers_of a ds))).
Proof.
  intros a ds table.
  apply (didwrap_iff_full a ds table).
  - by eexists.
  - by vm_compute.
  - reflexivity.
  - repeat constructor; by vm_compute.
Defined.

(** C7 as stated fails: with capacity 5 and exactly five outliers the
    buffer still holds all five, nothing was overwritten, and [didwrap]
    is set although no more than capacity outliers were recorded. *)
Lemma didwrap_before_overwrite :
  let a := mk_args 4 (Some "out") 50 10 5 0 1 79 in
  let ds := [(1, 100); (2, 200); (3, 300); (4, 400); (5, 500)] in
  exists table s,
    histo_table a = Some table /\
    analyze_all a ds (state_init a table) = Some s /\
    didwrap s = true /\
    outbuf s = Some (as_outlier <$> ds) /\
    ~ args_outbuf a < Z.of_nat (length (outliers_of a ds)).
Proof.
  intros a ds. eexists _, _. split_and!.
  - by vm_compute.
  - by vm_compute.
  - reflexivity.
  - reflexivity.
  - vm_compute. congruence.
Qed.

(** ** Running statistics *)

Lemma analyze_stats a t5 d s s' :
  analyze a t5 d s = Some s' ->
  min s' = Z.min d (min s) /\ max s' = Z.max d (max s) /\
  delta_sum s' = to_u64 (delta_sum s + d) /\
  delta_count s' = to_u64 (delta_count s + 1).
Proof.
  unfold analyze.
  destruct (count_delta (histo s) d) as [histo'|]; simpl; [|done].
  intros [= <-]. simpl. split_and!; try done.
  - destruct (Z.ltb_spec d (min s)); lia.
  - destruct (Z.gtb_spec d (max s)); lia.
Qed.

Lemma analyze_all_stats_from a ds : forall s0,
  has_sentinel (histo s0) -> Forall (fun x => is_u64 x.2) ds ->
  min s0 <= UINT64_MAX -> 0 <= max s0 ->
  is_u64 (delta_sum s0) -> is_u64 (delta_count s0) ->
  exists s,
    analyze_all a ds s0 = Some s /\
    min s = Z.min (foldr Z.min UINT64_MAX ds.*2) (min s0) /\
    max s = Z.max (foldr Z.max 0 ds.*2) (max s0) /\
    delta_sum s = to_u64 (delta_sum s0 + foldr Z.add 0 ds.*2) /\
    delta_count s = to_u64 (delta_count s0 + Z.of_nat (length ds)).
Proof.
  induction ds as [|[t5 d] ds IH]; intros s0 Hs0 Hds Hmin Hmax Hsum Hcnt.
  - exists s0. simpl. rewrite !Z.add_0_r, !to_u64_id by done.
    split_and!; try done; lia.
  - inversion Hds as [|? ? [Hd0 Hd] Hds']; subst. simpl in Hd0, Hd.
    destruct (analyze_total a t5 d s0 Hs0 Hd) as (s1 & Hrun1 & Hs1 & _).
    destruct (analyze_stats a t5 d s0 s1 Hrun1)
      as (Hmin1 & Hmax1 & Hsum1 & Hcnt1).
    destruct (IH s1 Hs1 Hds') as (s & Hrun & Hmin' & Hmax' & Hsum' & Hcnt');
      [lia|lia|rewrite Hsum1; apply to_u64_range
      |rewrite Hcnt1; apply to_u64_range|].
    exists s. rewrite !fmap_cons. simpl. rewrite Hrun1. simpl.
    split_and!; try done.
    + rewrite Hmin', Hmin1. lia.
    + rewrite Hmax', Hmax1. lia.
    + rewrite Hsum', Hsum1, to_u64_add_l. f_equal. lia.
    + rewrite Hcnt', Hcnt1, to_u64_add_l. f_equal. lia.
Qed.

(** The analysis loop never fails on a table that ends with the sentinel,
    and it leaves in [min], [max], [delta_sum] and [delta_count] the
    smallest delta, the largest delta, the sum of the deltas and their
    number, the last two modulo 2^64. *)
Theorem analyze_all_stats (a : args_t) (ds : list (Z * Z))
    (table : list bin_t) :
  has_sentinel table -> Forall (fun x => is_u64 x.2) ds ->
  exists s,
    analyze_all a ds (state_init a table) = Some s /\
    min s = foldr Z.min UINT64_MAX ds.*2 /\
    max s = foldr Z.max 0 ds.*2 /\
    delta_sum s = to_u64 (foldr Z.add 0 ds.*2) /\
    delta_count s = to_u64 (Z.of_nat (length ds)).
Proof.
  intros Hsent Hds.
  destruct (analyze_all_stats_from a ds (state_init a table) Hsent Hds)
    as (s & Hrun & Hmin & Hmax & Hsum & Hcnt);
    [simpl; lia|simpl; lia|by vm_compute|by vm_compute|].
  exists s. simpl in *. split_and!; try done.
  - rewrite Hmin. apply Z.min_l.
    clear. induction ds as [|[t5 d] ds IH]; [done|].
    rewrite fmap_cons. simpl. lia.
  - rewrite Hmax. apply Z.max_l.
    clear. induction ds as [|[t5 d] ds IH]; [done|].
    rewrite fmap_cons. simpl. lia.
Qed.

(** The default table and deltas on both sides of the knee. *)
Lemma analyze_all_stats_witness :
  exists s,
    analyze_all args_init [(7, 12); (7, 9); (7, 1000000)]
      (state_init args_init [mk_bin 50 0; mk_bin UINT64_MAX 0]) = Some s /\
    min s = foldr Z.min UINT64_MAX [(7, 12); (7, 9); (7, 1000000)].*2 /\
    max s = foldr Z.max 0 [(7, 12); (7, 9); (7, 1000000)].*2 /\
    delta_sum s = to_u64 (foldr Z.add 0 [(7, 12); (7, 9); (7, 1000000)].*2) /\
    delta_count s = to_u64 (Z.of_nat (length [(7, 12); (7, 9); (7, 1000000)])).
Proof.
  apply (analyze_all_stats args_init [(7, 12); (7, 9); (7, 1000000)]
           [mk_bin 50 0; mk_bin UINT64_MAX 0]).
  - reflexivity.
  - repeat constructor; by vm_compute.
Defined.

(** One delta of 1000000 ticks with [knee] 50 and an outlier buffer of
    five entries: one outlier is recorded in slot 0, [didwrap] stays
    clear, and the bin with upper bound 1000000 has count 1. *)
Theorem one_outlier_scenario :
  let a := mk_args 20 (Some "out") 50 10 5 0 1 79 in
  exists table s,
    histo_table a = Some table /\
    analyze_all a [(7, 1000000)] (state_init a table) = Some s /\
    outbuf s = Some (mk_outlier 7 1000000 :: replicate 4 outlier_zero) /\
    obp s = 1 /\ didwrap s = false /\
    histo s !! 18%nat = Some (mk_bin 1000000 1) /\
    sum_counts (histo s) = 1.
Proof.
  intros a. eexists _, _. split_and!; [by vm_compute|by vm_compute|..];
    reflexivity.
Qed.

(** ** The outlier dump *)

Lemma dump_outliers_insert_zero start tpns (buf : list outlier_t) i x y :
  when x = 0 -> when y = 0 ->
  dump_outliers start tpns (<[i:=x]> buf) =
  dump_outliers start tpns (<[i:=y]> buf).
Proof.
  intros Hx Hy. revert i.
  induction buf as [|o buf IH]; intros [|i]; simpl; try done.
  - by rewrite Hx, Hy.
  - change (list_insert i x buf) with (<[i:=x]> buf).
    change (list_insert i y buf) with (<[i:=y]> buf).
    by rewrite (IH i).
Qed.

(** C10.  The dump loop writes a line for a slot exactly when the slot's
    [when] field is nonzero: the lines are those of the slots with nonzero
    [when], in slot order; a buffer of never-written (zeroed) slots yields
    no line; and an outlier recorded with timestamp 0 leaves the dump as
    if its slot had never been written. *)
Theorem dump_outliers_nonzero_when (start_tsc : Z) (tpns : float)
    (buf : list outlier_t) :
  dump_outliers start_tsc tpns buf =
    outlier_line start_tsc tpns <$> filter (fun o => when o <> 0) buf /\
  dump_outliers start_tsc tpns (replicate (length buf) outlier_zero) = [] /\
  forall a d p w,
    dump_outliers start_tsc tpns (record_outlier a 0 d (buf, p, w)).1.1 =
    dump_outliers start_tsc tpns (<[Z.to_nat p:=outlier_zero]> buf).
Proof.
  split_and!.
  - induction buf as [|o buf IH]; simpl; [done|].
    rewrite filter_cons. destruct (Z.eqb_spec (when o) 0) as [Hz|Hnz].
    + by rewrite decide_False by (intros ?; done).
    + rewrite decide_True by done. by rewrite fmap_cons, IH.
  - induction buf as [|o buf IH]; simpl; [done|]. exact IH.
  - intros a d p w. unfold record_outlier.
    destruct (p + 1 >=? args_outbuf a); simpl;
      by apply dump_outliers_insert_zero.
Qed.

(** ** Argument validity checks *)





(** [main] takes the usage exit exactly when [errflag] is nonzero after
    the checks; this depends on the options alone. *)
Lemma main_exit_usage_checks log conv e :
  main log conv e = Exit_usage <->
  validity_checks (args_parse (env_opts e) args_init).1
                  (args_parse (env_opts e) args_init).2 <> 0.
Proof.
  unfold main.
  destruct (args_parse (env_opts e) args_init) as [errflag a]. simpl.
  destruct (Z.eqb_spec (validity_checks errflag a) 0) as [Hz|Hnz]; simpl;
    [|done].
  split; [|done].
  destruct (_ && _); [done|].
  destruct (args_bins a <? 0); [done|].
  destruct (histo_table a) as [table|]; [|done].
  match goal with
  | |- context [match ?x with Some _ => _ | None => _ end] => by destruct x
  end.
Qed.




(** ** Bars and knee advice *)

Section ReportProofs.

Variable log : float -> float.
Variable double_to_int : float -> Z.

Lemma countlog_of_spec scale c :
  let r := countlog_of log double_to_int scale c in
  0 <= r.1 /\ (c <> 0 -> 1 <= r.1) /\
  (c = 0 -> r.1 = Z.max 0 (double_to_int (scale * log (log_arg 0))%float)) /\
  r.2 = [log_arg c].
Proof.
  unfold countlog_of, call_log. simpl.
  set (v := double_to_int (scale * log (log_arg c))%float).
  destruct (Z.ltb_spec v 0) as [Hneg|Hpos]; simpl;
    [|destruct (Z.eqb_spec v 0) as [Hv|Hv]; simpl];
    destruct (Z.eqb_spec c 0) as [Hc|Hc]; simpl;
    split_and!; intros; subst v; subst; try done; lia.
Qed.

Lemma print_histo_rows a scale histo : forall i c m,
  let r := print_histo log double_to_int a scale i histo c m in
  Forall2 (fun b row =>
             row_ub row = ub b /\ row_count row = count b /\
             row_countlog row = (countlog_of log double_to_int scale (count b)).1)
          histo r.1.1.1 /\
  r.2 = log_arg ∘ count <$> histo.
Proof.
  induction histo as [|b rest IH]; intros i c m; simpl; [by split|].
  specialize (IH (i + 1) (to_u64 (c + count b))
                 (if i =? args_bins a ÷ 2 then c else m)).
  destruct (print_histo log double_to_int a scale (i + 1) rest
              (to_u64 (c + count b))
              (if i =? args_bins a ÷ 2 then c else m))
    as [[[rs c'] m'] calls'].
  simpl in *. destruct IH as [Hrows Hcalls].
  split; [|by rewrite Hcalls].
  constructor; [|done]. done.
Qed.

Lemma print_histo_mid_count a scale histo : forall i c m,
  to_u64 c = c -> 0 <= i ->
  (print_histo log double_to_int a scale i histo c m).1.2 =
    if decide (i <= args_bins a ÷ 2 < i + Z.of_nat (length histo))
    then to_u64 (c + sum_counts (take (Z.to_nat (args_bins a ÷ 2 - i)) histo))
    else m.
Proof.
  induction histo as [|b rest IH]; intros i c m Hc Hi; simpl.
  { case_decide; [lia|done]. }
  specialize (IH (i + 1) (to_u64 (c + count b))
                 (if i =? args_bins a ÷ 2 then c else m)).
  destruct (print_histo log double_to_int a scale (i + 1) rest
              (to_u64 (c + count b))
              (if i =? args_bins a ÷ 2 then c else m))
    as [[[rs c'] m'] calls'].
  simpl in *. rewrite IH; [|unfold to_u64; apply Z.mod_mod; lia|lia].
  destruct (Z.eqb_spec i (args_bins a ÷ 2)) as [Heq|Hne].
  - rewrite decide_False by lia. rewrite decide_True by lia.
    rewrite <- Heq, Z.sub_diag. simpl. by rewrite Z.add_0_r.
  - destruct (decide (i + 1 <= args_bins a ÷ 2 <
                      i + 1 + Z.of_nat (length rest))).
    + rewrite decide_True by lia.
      replace (Z.to_nat (args_bins a ÷ 2 - i))
        with (S (Z.to_nat (args_bins a ÷ 2 - (i + 1)))) by lia.
      simpl. rewrite to_u64_add_l. f_equal. lia.
    + rewrite decide_False by lia. done.
Qed.

End ReportProofs.

Lemma report_rows log conv a start stop us s :
  let r := report log conv a start stop us s in
  let scale := (graph_scale log a (find_max_count (histo s) 0)).1 in
  rows r = (print_histo log conv a scale 0 (histo s) 0 0).1.1.1 /\
  log_calls r = log_arg (find_max_count (histo s) 0)
                :: (print_histo log conv a scale 0 (histo s) 0 0).2 /\
  advice r = min_advice a s
             ++ knee_advice_histo s (print_histo log conv a scale 0 (histo s) 0 0).1.2
             ++ knee_advice_outbuf a s.
Proof.
  unfold report, graph_scale, call_log. simpl.
  by destruct (print_histo log conv a _ 0 (histo s) 0 0) as [[[rs c] m] calls].
Qed.

(** C8 (as amended).  The report calls [log] once for the scale factor
    and once for every bin, on [count - e], empty bins included, for which
    the argument [-e] is negative.  Every bar length is at least 0, the
    bar of a bin with nonzero count is at least 1, and the bar of an empty
    bin is the value the platform converts [scale * log(-e)] to, clamped
    at 0 from below. *)
Theorem report_bar_lengths (log : float -> float) (double_to_int : float -> Z)
    (a : args_t) (start_tsc stop_tsc us : Z) (s : state_t) :
  let r := report log double_to_int a start_tsc stop_tsc us s in
  let scale := (graph_scale log a (find_max_count (histo s) 0)).1 in
  Forall2 (fun b row =>
             row_count row = count b /\
             0 <= row_countlog row /\
             (count b <> 0 -> 1 <= row_countlog row) /\
             (count b = 0 ->
              row_countlog row =
                Z.max 0 (double_to_int (scale * log (log_arg 0))%float)))
          (histo s) (rows r) /\
  log_calls r = log_arg (find_max_count (histo s) 0)
                :: (log_arg ∘ count <$> histo s) /\
  (log_arg 0 <? 0)%float = true.
Proof.
  intros r scale.
  destruct (report_rows log double_to_int a start_tsc stop_tsc us s)
    as (Hrows & Hcalls & _).
  destruct (print_histo_rows log double_to_int a scale (histo s) 0 0 0)
    as [Hall Htrace].
  subst r. rewrite Hrows, Hcalls. fold scale. split_and!.
  - eapply Forall2_impl; [exact Hall|]. simpl.
    intros b row (_ & Hcount & Hlog).
    destruct (countlog_of_spec log double_to_int scale (count b))
      as (H0 & H1 & Hz & _).
    rewrite Hlog. done.
  - by rewrite Htrace.
  - reflexivity.
Qed.

(** C8 as stated fails: in a default run whose ten deltas all land in the
    first bin, the second row has count 0 and its bar length was computed
    by a [log] call on a negative argument. *)
Lemma empty_bin_log_of_negative :
  let e := mk_env [] (block_of 0 12) [] 0 6000 1 in
  exists s r row x,
    main (fun x => x) (fun _ => 0) e = Return_0 s r /\
    rows r !! 1%nat = Some row /\ row_count row = 0 /\
    log_calls r !! 2%nat = Some x /\ (x <? 0)%float = true.
Proof.
  intros e. eexists _, _, _, _. split_and!.
  - by vm_compute.
  - reflexivity.
  - reflexivity.
  - reflexivity.
  - reflexivity.
Qed.

Lemma elem_of_if_singleton (b : bool) (x y : advice_t) :
  x ∈ (if b then [y] else []) <-> b = true /\ x = y.
Proof.
  destruct b.
  - rewrite list_elem_of_singleton. tauto.
  - rewrite elem_of_nil. split; [done|]. intros [? _]. congruence.
Qed.

(** C9 (as amended).  Without an outlier buffer, the report recommends
    increasing the knee exactly when [100.0*mid_count/delta_count] is
    below 90 and decreasing it exactly when that value is above 99, where
    [mid_count] is the cumulative count of the bins below index [bins/2]
    (bins 0 .. bins/2 - 1, the deltas not above the knee); the count of
    the bin at index [bins/2] is not part of it. *)
Theorem knee_advice_mid_count (log : float -> float)
    (double_to_int : float -> Z) (a : args_t) (start_tsc stop_tsc us : Z)
    (s : state_t) :
  outbuf s = None ->
  Z.of_nat (length (histo s)) = args_bins a -> 1 <= args_bins a ->
  let r := report log double_to_int a start_tsc stop_tsc us s in
  let p := percent (cum_count (histo s) (args_bins a ÷ 2)) (delta_count s) in
  (Recommend_increasing_knee ∈ advice r <-> (p <? 90)%float = true) /\
  (Recommend_decreasing_knee ∈ advice r <-> (99 <? p)%float = true).
Proof.
  intros Hnone Hlen Hb r p.
  destruct (report_rows log double_to_int a start_tsc stop_tsc us s)
    as (_ & _ & Hadv).
  destruct (quot2_bounds _ Hb) as [Hn _].
  subst r. rewrite Hadv.
  rewrite print_histo_mid_count by (done || lia).
  rewrite decide_True by lia. rewrite Z.sub_0_r, Z.add_0_l.
  fold (cum_count (histo s) (args_bins a ÷ 2)). fold p.
  unfold knee_advice_outbuf, knee_advice_histo, min_advice.
  rewrite Hnone, app_nil_r. fold p.
  rewrite bool_decide_eq_false_2 by (by intros [? ?]). simpl.
  rewrite !elem_of_app, !elem_of_if_singleton.
  split; (split; [intros [[? ?]|[[? ?]|[? ?]]]; congruence|]);
    intros Hp; [right; left|right; right]; done.
Qed.

(** C9 (as amended) at a four-bin table with nine of ten deltas below the
    knee. *)
Lemma knee_advice_mid_count_witness :
  let s := mk_state [mk_bin 30 9; mk_bin 50 0; mk_bin 100 1; mk_bin UINT64_MAX 0]
                    0 10 0 10 60 0 0 None 0 false in
  let a := mk_args 4 None 50 10 10000 0 1 79 in
  let r := report (fun x => x) (fun _ => 0) a 0 6000 1 s in
  let p := percent (cum_count (histo s) (args_bins a ÷ 2)) (delta_count s) in
  (Recommend_increasing_knee ∈ advice r <-> (p <? 90)%float = true) /\
  (Recommend_decreasing_knee ∈ advice r <-> (99 <? p)%float = true).
Proof.
  intros s a.
  apply (knee_advice_mid_count (fun x => x) (fun _ => 0) a 0 6000 1 s).
  - reflexivity.
  - reflexivity.
  - by vm_compute.
Defined.

(** C9 as stated fails: ten deltas of 60 ticks with [min] 50 and [knee] 55
    all land in the bin at index [bins/2]; the cumulative percentage of
    that row is 100, above 99, yet the advice is to increase the knee. *)
Lemma knee_advice_not_cumulative_at_mid :
  let e := mk_env [opt_b 4; opt_m 50; opt_k 55] (block_of 0 60) [] 0 6000 1 in
  exists s r row,
    main (fun x => x) (fun _ => 0) e = Return_0 s r /\
    outbuf s = None /\
    rows r !! Z.to_nat (4 ÷ 2) = Some row /\
    (99 <? percent (row_c_count row) (delta_count s))%float = true /\
    advice r = [Recommend_increasing_knee].
Proof.
  intros e. eexists _, _, _. split_and!.
  - by vm_compute.
  - reflexivity.
  - reflexivity.
  - reflexivity.
  - reflexivity.
Qed.

(** * Further properties *)

(** ** The command line *)

Lemma args_parse_flag opts : forall a,
  (args_parse opts a).1 = if forallb opt_accepted opts then 0 else 1.
Proof.
  induction opts as [|o opts IH]; intros a; [done|].
  destruct o; simpl; try apply IH; done.
Qed.

Lemma args_parse_outbuf opts : forall a,
  args_outbuf (args_parse opts a).2 = args_outbuf a.
Proof.
  induction opts as [|o opts IH]; intros a; [done|].
  destruct o; simpl; try done; by rewrite IH.
Qed.

(** [args_parse] returns 1 exactly when some option is [-h], [-o] or
    unknown to [getopt_long], and 0 otherwise; it never changes
    [args.outbuf]; and at the first such option it returns at once, with
    the options before it applied and those after it ignored. *)
Theorem args_parse_accepts (opts : list opt_t) (a : args_t) :
  (args_parse opts a).1 = (if forallb opt_accepted opts then 0 else 1) /\
  args_outbuf (args_parse opts a).2 = args_outbuf a /\
  (forall pre o rest,
     opts = pre ++ o :: rest ->
     forallb opt_accepted pre = true -> opt_accepted o = false ->
     args_parse opts a = (1, (args_parse pre a).2)).
Proof.
  split_and!.
  - apply args_parse_flag.
  - apply args_parse_outbuf.
  - intros pre o rest -> Hpre Ho. revert a Hpre.
    induction pre as [|p pre IH]; intros a Hpre.
    + by destruct o.
    + simpl in Hpre. apply andb_true_iff in Hpre as [Hp Hpre].
      destruct p; simpl in *; try done; by apply IH.
Qed.

(** ** Pauses and timestamps *)

Lemma to_u32_id z : 0 <= z < 2 ^ 32 -> to_u32 z = z.
Proof. intros. unfold to_u32. apply Z.mod_small. lia. Qed.

(** For every positive pause the calls before a block ask for exactly
    that many milliseconds, and [usleep] is never asked for a second or
    more. *)
Theorem pause_calls_total (a : args_t) :
  0 < args_pause a <= INT_MAX ->
  requested_usecs (pause_calls a) = 1000 * args_pause a /\
  Forall (fun c => match c with
                   | usleep usecs => 0 <= usecs < 1000000
                   | sleep secs => 1 <= secs
                   end) (pause_calls a).
Proof.
  unfold INT_MAX. intros Hx. unfold pause_calls.
  rewrite (proj2 (Z.eqb_neq _ _)) by lia.
  unfold SLEEP_MSEC.
  destruct (Z.geb_spec (args_pause a) 1000) as [Hbig|Hsmall].
  - rewrite Z.quot_div_nonneg, Z.rem_mod_nonneg by lia.
    pose proof (Z.div_mod (args_pause a) 1000 ltac:(lia)) as Hdm.
    pose proof (Z.mod_pos_bound (args_pause a) 1000 ltac:(lia)) as Hm.
    assert (1 <= args_pause a / 1000 <= args_pause a).
    { split; [apply Z.div_le_lower_bound; lia|].
      apply Z.div_le_upper_bound; lia. }
    rewrite to_int_id by (unfold is_int, INT_MIN, INT_MAX; lia).
    rewrite !to_u32_id by lia.
    split; [simpl; lia|]. repeat constructor; lia.
  - rewrite to_int_id by (unfold is_int, INT_MIN, INT_MAX; lia).
    rewrite to_u32_id by lia.
    split; [simpl; lia|]. repeat constructor; lia.
Qed.

Lemma pause_calls_total_witness :
  requested_usecs (pause_calls (mk_args 20 None 50 10 10000 2500 1 79))
    = 1000 * 2500 /\
  Forall (fun c => match c with
                   | usleep usecs => 0 <= usecs < 1000000
                   | sleep secs => 1 <= secs
                   end) (pause_calls (mk_args 20 None 50 10 10000 2500 1 79)).
Proof.
  apply (pause_calls_total (mk_args 20 None 50 10 10000 2500 1 79)).
  by vm_compute.
Defined.

Lemma testbit_above (lo n : Z) :
  0 <= lo < 2 ^ 32 -> 32 <= n -> Z.testbit lo n = false.
Proof.
  intros Hlo Hn. destruct (decide (lo = 0)) as [->|Hnz].
  - apply Z.bits_0.
  - apply Z.bits_above_log2; [lia|].
    assert (Z.log2 lo < 32) by (apply Z.log2_lt_pow2; lia). lia.
Qed.

(** The two halves are combined without loss: the value is
    [hi * 2^32 + lo], a 64-bit value from which both halves can be read
    back. *)
Theorem rdtsc_halves (hi lo : Z) :
  0 <= hi < 2 ^ 32 -> 0 <= lo < 2 ^ 32 ->
  rdtsc hi lo = hi * 2 ^ 32 + lo /\ is_u64 (rdtsc hi lo) /\
  Z.shiftr (rdtsc hi lo) 32 = hi /\ Z.land (rdtsc hi lo) (2 ^ 32 - 1) = lo.
Proof.
  intros Hhi Hlo.
  assert (rdtsc hi lo = hi * 2 ^ 32 + lo) as Heq.
  { unfold rdtsc. rewrite Z.shiftl_mul_pow2 by lia.
    rewrite to_u64_id by (unfold is_u64, UINT64_MAX; lia).
    rewrite <- Z.shiftl_mul_pow2 by lia.
    assert (Z.land (Z.shiftl hi 32) lo = 0) as Hdisjoint.
    { apply Z.bits_inj'; intros n Hn.
      rewrite Z.land_spec, Z.shiftl_spec, Z.bits_0 by lia.
      destruct (Z.ltb_spec n 32).
      - by rewrite Z.testbit_neg_r by lia.
      - rewrite (testbit_above lo n) by lia. apply andb_false_r. }
    by rewrite Z.add_nocarry_lxor, Z.lxor_lor. }
  rewrite Heq. split_and!.
  - done.
  - unfold is_u64, UINT64_MAX. lia.
  - rewrite Z.shiftr_div_pow2 by lia.
    rewrite Z.div_add_l by lia. rewrite Z.div_small by lia. lia.
  - change (2 ^ 32 - 1) with (Z.ones 32). rewrite Z.land_ones by lia.
    rewrite Z.add_comm, Z.mod_add by lia. apply Z.mod_small. lia.
Qed.

Lemma rdtsc_halves_witness :
  rdtsc 3 7 = 3 * 2 ^ 32 + 7 /\ is_u64 (rdtsc 3 7) /\
  Z.shiftr (rdtsc 3 7) 32 = 3 /\ Z.land (rdtsc 3 7) (2 ^ 32 - 1) = 7.
Proof. apply (rdtsc_halves 3 7); lia. Defined.

(** ** The sampling loop *)

Lemma analyze_with_timing_ticks a t5 d v s :
  analyze a t5 d (with_timing_ticks v s) =
  with_timing_ticks v <$> analyze a t5 d s.
Proof.
  unfold analyze. simpl.
  destruct (count_delta (histo s) d) as [histo'|]; simpl; [|done].
  unfold outlier_step. simpl. done.
Qed.

Lemma analyze_all_with_timing_ticks a ds : forall v s,
  analyze_all a ds (with_timing_ticks v s) =
  with_timing_ticks v <$> analyze_all a ds s.
Proof.
  induction ds as [|[t5 d] ds IH]; intros v s; [done|].
  simpl. rewrite analyze_with_timing_ticks.
  destruct (analyze a t5 d s) as [s1|]; simpl; [|done]. apply IH.
Qed.

Lemma analyze_all_app a ds1 ds2 s :
  analyze_all a (ds1 ++ ds2) s = analyze_all a ds1 s ≫= analyze_all a ds2.
Proof.
  revert s. induction ds1 as [|[t5 d] ds1 IH]; intros s; [done|].
  simpl. destruct (analyze a t5 d s) as [s1|]; simpl; [|done]. apply IH.
Qed.

Lemma with_timing_ticks_twice v w s :
  with_timing_ticks v (with_timing_ticks w s) = with_timing_ticks v s.
Proof. done. Qed.

Lemma sample_loop_analyze_all a blocks : forall s,
  sample_loop a blocks s =
  with_timing_ticks (ticks_of blocks (timing_ticks s))
    <$> analyze_all a (samples_of blocks) s.
Proof.
  induction blocks as [|ts blocks IH]; intros s.
  - simpl. by destruct s.
  - simpl. unfold analyze_block.
    change (mk_state (histo s) ?v _ _ _ _ _ _ _ _ _)
      with (with_timing_ticks v s).
    fold (block_samples ts).
    unfold samples_of. rewrite fmap_cons. simpl concat.
    rewrite analyze_all_app, analyze_all_with_timing_ticks.
    destruct (analyze_all a (block_samples ts) s) as [s1|]; simpl; [|done].
    rewrite IH. simpl.
    fold (samples_of blocks).
    rewrite analyze_all_with_timing_ticks.
    destruct (analyze_all a (samples_of blocks) s1) as [s2|]; simpl; done.
Qed.

Lemma to_u64_add_r x y : to_u64 (x + to_u64 y) = to_u64 (x + y).
Proof. unfold to_u64. apply Zplus_mod_idemp_r. Qed.

Lemma deltas_telescope ts : forall t0,
  to_u64 (foldr Z.add 0
            (zip_with (fun t t' => to_u64 (t' - t)) (t0 :: ts) ts)) =
  to_u64 (default t0 (last ts) - t0).
Proof.
  induction ts as [|t1 ts IH]; intros t0.
  - simpl. by rewrite Z.sub_diag.
  - change (zip_with (fun t t' => to_u64 (t' - t)) (t0 :: t1 :: ts) (t1 :: ts))
      with (to_u64 (t1 - t0)
            :: zip_with (fun t t' => to_u64 (t' - t)) (t1 :: ts) ts).
    set (rest := zip_with (fun t t' => to_u64 (t' - t)) (t1 :: ts) ts).
    change (foldr Z.add 0 (to_u64 (t1 - t0) :: rest))
      with (to_u64 (t1 - t0) + foldr Z.add 0 rest).
    rewrite to_u64_add_l, <- to_u64_add_r. subst rest.
    rewrite IH, to_u64_add_r.
    f_equal. destruct ts as [|t2 ts]; [simpl; lia|].
    rewrite last_cons_cons.
    destruct (last (t2 :: ts)) as [x|] eqn:Hlast; [simpl; lia|].
    by apply last_None in Hlast.
Qed.

Lemma block_deltas_spec ts :
  length ts = 11%nat ->
  length (block_deltas ts) = 10%nat /\
  to_u64 (foldr Z.add 0 (block_deltas ts)) =
    to_u64 (ts !!! 10%nat - ts !!! 0%nat).
Proof.
  intros Hlen.
  do 12 (destruct ts as [|? ts]; try discriminate Hlen).
  split; [done|].
  unfold block_deltas. rewrite take_ge by (simpl; lia).
  simpl tail. rewrite deltas_telescope. done.
Qed.

Lemma block_deltas_u64 ts : Forall is_u64 (block_deltas ts).
Proof.
  unfold block_deltas. apply Forall_take, Forall_lookup_2. intros i d Hi.
  apply lookup_zip_with_Some in Hi as (x & y & -> & _ & _).
  apply to_u64_range.
Qed.

Lemma samples_of_u64 blocks :
  Forall (fun x : Z * Z => is_u64 x.2) (samples_of blocks).
Proof.
  unfold samples_of. apply Forall_concat, Forall_fmap, Forall_forall.
  intros ts _. unfold block_samples. simpl.
  change (map ?f ?l) with (f <$> l). apply Forall_fmap.
  eapply Forall_impl; [apply block_deltas_u64|]. done.
Qed.

Lemma foldr_add_app (l k : list Z) :
  foldr Z.add 0 (l ++ k) = foldr Z.add 0 l + foldr Z.add 0 k.
Proof. induction l as [|d l IHl]; simpl; lia. Qed.

Lemma samples_of_sums blocks :
  Forall (fun ts => length ts = 11%nat) blocks ->
  length (samples_of blocks) = (10 * length blocks)%nat /\
  forall v,
    ticks_of blocks (to_u64 v) =
    to_u64 (v + foldr Z.add 0 (samples_of blocks).*2).
Proof.
  induction 1 as [|ts blocks Hts _ [IHlen IHsum]].
  - split; [done|]. intros v. simpl. by rewrite Z.add_0_r.
  - destruct (block_deltas_spec ts Hts) as [Hlen Hsum].
    unfold samples_of in *. rewrite fmap_cons. simpl concat.
    split.
    + rewrite length_app, IHlen. unfold block_samples.
      rewrite length_map, Hlen. simpl. lia.
    + intros v. unfold ticks_of in *. simpl foldl. rewrite to_u64_add_l, <- Hsum, to_u64_add_r.
      rewrite IHsum. f_equal. rewrite fmap_app.
      assert ((block_samples ts).*2 = block_deltas ts) as ->.
      { unfold block_samples. rewrite <- list_fmap_compose.
        apply list_fmap_id. }
      rewrite foldr_add_app. lia.
Qed.


(** The sampling loop on blocks of eleven timestamps, from the initial
    state: it is the inner loop run over the deltas of all blocks in
    order; ten deltas are counted per block; and [timing_ticks] always
    equals [delta_sum], both being the sum of the deltas modulo 2^64. *)
Theorem sample_loop_ticks (a : args_t) (blocks : list (list Z))
    (table : list bin_t) :
  has_sentinel table ->
  Forall (fun ts => length ts = 11%nat) blocks ->
  exists s,
    sample_loop a blocks (state_init a table) = Some s /\
    analyze_all a (samples_of blocks) (state_init a table)
      = Some (with_timing_ticks 0 s) /\
    delta_count s = to_u64 (10 * Z.of_nat (length blocks)) /\
    timing_ticks s = delta_sum s /\
    delta_sum s = to_u64 (foldr Z.add 0 (samples_of blocks).*2).
Proof.
  intros Hsent Hblocks.
  destruct (samples_of_sums blocks Hblocks) as [Hlen Hticks].
  destruct (analyze_all_stats_from a (samples_of blocks) (state_init a table)
              Hsent (samples_of_u64 blocks))
    as (s & Hrun & _ & _ & Hsum & Hcnt);
    [simpl; lia|simpl; lia|by vm_compute|by vm_compute|].
  simpl in Hsum, Hcnt.
  exists (with_timing_ticks (ticks_of blocks 0) s).
  rewrite sample_loop_analyze_all, Hrun. simpl. split_and!.
  - done.
  - pose proof Hrun as Hrun'.
    change (state_init a table)
      with (with_timing_ticks 0 (state_init a table)) in Hrun'.
    rewrite analyze_all_with_timing_ticks, Hrun in Hrun'.
    rewrite with_timing_ticks_twice. by symmetry.
  - rewrite Hcnt, Hlen. f_equal. lia.
  - rewrite Hsum. apply (Hticks 0).
  - done.
Qed.

(** Two blocks sampled 12 and 15 ticks apart. *)
Lemma sample_loop_ticks_witness :
  exists s,
    sample_loop args_init [block_of 0 12; block_of 500 15]
      (state_init args_init [mk_bin 50 0; mk_bin UINT64_MAX 0]) = Some s /\
    analyze_all args_init (samples_of [block_of 0 12; block_of 500 15])
      (state_init args_init [mk_bin 50 0; mk_bin UINT64_MAX 0])
      = Some (with_timing_ticks 0 s) /\
    delta_count s =
      to_u64 (10 * Z.of_nat (length [block_of 0 12; block_of 500 15])) /\
    timing_ticks s = delta_sum s /\
    delta_sum s =
      to_u64 (foldr Z.add 0 (samples_of [block_of 0 12; block_of 500 15]).*2).
Proof.
  apply (sample_loop_ticks args_init [block_of 0 12; block_of 500 15]
           [mk_bin 50 0; mk_bin UINT64_MAX 0]).
  - reflexivity.
  - repeat constructor.
Defined.








(** ** The bin scan, once more *)

(** A larger delta never lands in an earlier bin, whatever the upper
    bounds are. *)
Theorem find_bin_monotone (histo : list bin_t) (d1 d2 : Z) (i j : nat) :
  d1 <= d2 ->
  find_bin histo d1 = Some i -> find_bin histo d2 = Some j -> (i <= j)%nat.
Proof.
  intros Hd. revert i j.
  induction histo as [|b rest IH]; intros i j; simpl; [done|].
  destruct (Z.gtb_spec d1 (ub b)) as [H1|H1];
    destruct (Z.gtb_spec d2 (ub b)) as [H2|H2]; try lia.
  - destruct (find_bin rest d1) as [i'|]; [|done].
    destruct (find_bin rest d2) as [j'|]; [|done].
    simpl. intros [= <-] [= <-]. specialize (IH i' j' eq_refl eq_refl). lia.
  - intros [= <-] _. lia.
  - intros [= <-] _. lia.
Qed.

Lemma find_bin_monotone_witness :
  find_bin [mk_bin 30 0; mk_bin 50 0; mk_bin 100 0; mk_bin UINT64_MAX 0] 31
    = Some 1%nat /\
  find_bin [mk_bin 30 0; mk_bin 50 0; mk_bin 100 0; mk_bin UINT64_MAX 0] 1000
    = Some 3%nat /\
  (1 <= 3)%nat.
Proof.
  split; [reflexivity|]. split; [reflexivity|].
  apply (find_bin_monotone
           [mk_bin 30 0; mk_bin 50 0; mk_bin 100 0; mk_bin UINT64_MAX 0]
           31 1000).
  - lia.
  - reflexivity.
  - reflexivity.
Defined.

(** ** The cells [histo_setup] writes, for any number of bins *)

(** For every [bins >= 1], [histo_setup] writes the cells [0 .. bins-1]
    and, exactly when [bins - bins/2] is odd, also the cell [bins], one
    past the block. *)
Theorem histo_setup_footprint (a : args_t) :
  1 <= args_bins a ->
  exists histo,
    histo_setup a = Some histo /\
    forall k, is_Some (histo !! k) <->
      0 <= k < args_bins a
                 + (if Z.odd (args_bins a - args_bins a ÷ 2) then 1 else 0).
Proof.
  intros Hb.
  destruct (histo_setup_cells a Hb) as (histo & Hset & Hcells).
  exists histo. split; [done|]. intros k. rewrite Hcells.
  destruct (quot2_bounds _ Hb) as [Hn Hq].
  assert (args_bins a ÷ 2 + 2 * upper_iterations a =
          args_bins a
            + (if Z.odd (args_bins a - args_bins a ÷ 2) then 1 else 0))
    as Hend.
  { unfold upper_iterations.
    set (u := args_bins a - args_bins a ÷ 2).
    replace (args_bins a) with (args_bins a ÷ 2 + u) at 3 by (subst u; lia).
    pose proof (Z.div_mod (u + 1) 2 ltac:(lia)) as Hdm.
    pose proof (Z.mod_pos_bound (u + 1) 2 ltac:(lia)) as Hm.
    rewrite Zodd_mod.
    pose proof (Z.div_mod u 2 ltac:(lia)) as Hdu.
    pose proof (Z.mod_pos_bound u 2 ltac:(lia)) as Hmu.
    destruct (Z.eqb_spec (u mod 2) 1) as [Hodd|Heven].
    - assert ((u + 1) mod 2 = 0) as H0.
      { replace (u + 1) with (0 + (u / 2 + 1) * 2) by lia.
        by rewrite Z.mod_add by lia. }
      lia.
    - assert ((u + 1) mod 2 = 1) as H1.
      { replace (u + 1) with (1 + (u / 2) * 2) by lia.
        by rewrite Z.mod_add by lia. }
      lia. }
  unfold setup_cell. rewrite Hend.
  destruct (Z.odd (args_bins a - args_bins a ÷ 2));
    repeat case_decide; split; intros Hk; try lia; try done;
    by destruct Hk.
Qed.

(** Seven bins: cells 0 to 6 are written and nothing past them. *)
Lemma histo_setup_footprint_witness :
  exists histo,
    histo_setup (mk_args 7 None 50 10 10000 0 1 79) = Some histo /\
    forall k, is_Some (histo !! k) <-> 0 <= k < 7 + 0.
Proof.
  apply (histo_setup_footprint (mk_args 7 None 50 10 10000 0 1 79)).
  by vm_compute.
Defined.

(** ** The report *)

Lemma float_below_90_not_above_99 (p : float) :
  (p <? 90)%float = true -> (99 <? p)%float = false.
Proof.
  rewrite !ltb_spec.
  change (Prim2SF 90) with (S754_finite false 6333186975989760 (-46)).
  change (Prim2SF 99) with (S754_finite false 6966505673588736 (-46)).
  assert (6333186975989760 < 6966505673588736)%positive as Hlt90 by lia.
  revert Hlt90.
  generalize 6333186975989760%positive 6966505673588736%positive.
  intros k90 k99 Hk.
  destruct (Prim2SF p) as [sg|sg| |sg m e].
  - reflexivity.
  - destruct sg; [reflexivity|discriminate].
  - reflexivity.
  - unfold SFltb, SFcompare. destruct sg; [reflexivity|].
    change (PosDef.Pos.compare_cont Eq m k90) with (Pos.compare m k90).
    change (PosDef.Pos.compare_cont Eq k99 m) with (Pos.compare k99 m).
    rewrite (Z.compare_antisym e (-46)).
    rewrite (Pos.compare_antisym m k99).
    destruct (Z.compare_spec e (-46)) as [->|Hlt|Hgt];
      cbv beta iota delta [CompOpp]; [|reflexivity|discriminate].
    destruct (Pos.compare_spec m k90) as [->|Hm|Hm];
      [discriminate| |discriminate]. intros _.
    destruct (Pos.compare_spec m k99) as [->|Hm'|Hm'];
      [lia|reflexivity|lia].
Qed.

Lemma min_advice_no_knee a s x :
  x ∈ min_advice a s -> exists t, x = Recommend_min t.
Proof.
  unfold min_advice. case_match; [|by intros ?%elem_of_nil].
  intros ->%list_elem_of_singleton. eauto.
Qed.

(** Whatever the state after sampling, the report never recommends both
    increasing and decreasing the knee: one of the two lines is absent. *)
Theorem knee_advice_exclusive (log : float -> float)
    (double_to_int : float -> Z) (a : args_t) (start_tsc stop_tsc us : Z)
    (s : state_t) :
  Recommend_increasing_knee
    ∉ advice (report log double_to_int a start_tsc stop_tsc us s) \/
  Recommend_decreasing_knee
    ∉ advice (report log double_to_int a start_tsc stop_tsc us s).
Proof.
  destruct (report_rows log double_to_int a start_tsc stop_tsc us s)
    as (_ & _ & ->).
  set (m := (print_histo log double_to_int a _ 0 (histo s) 0 0).1.2).
  unfold knee_advice_histo, knee_advice_outbuf.
  set (p := percent m (delta_count s)).
  destruct (outbuf s) as [buf|].
  - rewrite bool_decide_eq_true_2 by eauto. cbn [negb andb app].
    destruct (didwrap s); [right|left];
      rewrite elem_of_app; intros [Hin|Hin].
    + apply min_advice_no_knee in Hin as [? ?]. congruence.
    + apply list_elem_of_singleton in Hin. congruence.
    + apply min_advice_no_knee in Hin as [? ?]. congruence.
    + destruct (obp s <? args_outbuf a ÷ 4).
      * apply list_elem_of_singleton in Hin. congruence.
      * by apply elem_of_nil in Hin.
  - rewrite bool_decide_eq_false_2 by (by intros [? ?]).
    cbn [negb andb]. rewrite !app_nil_r.
    destruct (p <? 90)%float eqn:Hp; [right|left];
      rewrite elem_of_app; intros [Hin|Hin].
    + apply min_advice_no_knee in Hin as [? ?]. congruence.
    + rewrite (float_below_90_not_above_99 p Hp) in Hin.
      apply list_elem_of_singleton in Hin. congruence.
    + apply min_advice_no_knee in Hin as [? ?]. congruence.
    + cbn [app] in Hin. destruct (99 <? p)%float.
      * apply list_elem_of_singleton in Hin. congruence.
      * by apply elem_of_nil in Hin.
Qed.

(** With outlier capture enabled, the knee advice depends only on how many
    outliers the run recorded: increase the knee exactly when the buffer
    filled up, decrease it exactly when fewer than a quarter of the
    capacity was used. *)
Theorem knee_advice_outliers (log : float -> float)
    (double_to_int : float -> Z) (a : args_t) (ds : list (Z * Z))
    (table : list bin_t) (start_tsc stop_tsc us : Z) :
  is_Some (args_outfile a) -> 0 < args_outbuf a ->
  has_sentinel table -> Forall (fun x => is_u64 x.2) ds ->
  exists s,
    analyze_all a ds (state_init a table) = Some s /\
    let r := report log double_to_int a start_tsc stop_tsc us s in
    let n := Z.of_nat (length (outliers_of a ds)) in
    (Recommend_increasing_knee ∈ advice r <-> args_outbuf a <= n) /\
    (Recommend_decreasing_knee ∈ advice r <-> n < args_outbuf a ÷ 4).
Proof.
  intros Hfile Hcap Hsent Hds.
  destruct (run_ring a ds table Hfile Hcap Hsent Hds)
    as (s & buf & Hrun & Hbuf & _ & Hobp & Hwrap & _).
  exists s. split; [done|]. intros r n. subst r.
  destruct (report_rows log double_to_int a start_tsc stop_tsc us s)
    as (_ & _ & ->).
  fold n in Hobp, Hwrap.
  unfold knee_advice_histo, knee_advice_outbuf. rewrite Hbuf, Hwrap.
  rewrite bool_decide_eq_true_2 by eauto. simpl.
  assert (args_outbuf a ÷ 4 <= args_outbuf a) as Hquarter.
  { rewrite Z.quot_div_nonneg by lia.
    apply Z.div_le_upper_bound; lia. }
  split.
  - rewrite elem_of_app. split.
    + intros [Hmin|Hin].
      * apply min_advice_no_knee in Hmin as [? ?]. congruence.
      * destruct (Z.leb_spec (args_outbuf a) n) as [Hle|Hlt]; [done|].
        destruct (obp s <? args_outbuf a ÷ 4).
        -- apply list_elem_of_singleton in Hin. congruence.
        -- by apply elem_of_nil in Hin.
    + intros Hle. right.
      rewrite (proj2 (Z.leb_le _ _) Hle). by apply list_elem_of_singleton.
  - rewrite elem_of_app. split.
    + intros [Hmin|Hin].
      * apply min_advice_no_knee in Hmin as [? ?]. congruence.
      * destruct (Z.leb_spec (args_outbuf a) n) as [Hle|Hlt].
        -- apply list_elem_of_singleton in Hin. congruence.
        -- rewrite Hobp, Z.mod_small in Hin by lia.
           destruct (Z.ltb_spec n (args_outbuf a ÷ 4)); [done|].
           by apply elem_of_nil in Hin.
    + intros Hlt. right.
      rewrite (proj2 (Z.leb_gt _ _)) by lia.
      rewrite Hobp, Z.mod_small by lia.
      rewrite (proj2 (Z.ltb_lt _ _) Hlt). by apply list_elem_of_singleton.
Qed.

(** A buffer of eight entries and one outlier: fewer than two. *)
Lemma knee_advice_outliers_witness :
  let a := mk_args 4 (Some "out") 50 10 8 0 1 79 in
  let ds := [(1, 100); (2, 20)] in
  let table := [mk_bin 30 0; mk_bin 50 0; mk_bin 100 0; mk_bin UINT64_MAX 0] in
  exists s,
    analyze_all a ds (state_init a table) = Some s /\
    let r := report (fun x => x) (fun _ => 0) a 0 6000 1 s in
    let n := Z.of_nat (length (outliers_of a ds)) in
    (Recommend_increasing_knee ∈ advice r <-> args_outbuf a <= n) /\
    (Recommend_decreasing_knee ∈ advice r <-> n < args_outbuf a ÷ 4).
Proof.
  intros a ds table.
  apply (knee_advice_outliers (fun x => x) (fun _ => 0) a ds table 0 6000 1).
  - by eexists.
  - reflexivity.
  - reflexivity.
  - repeat constructor; by vm_compute.
Defined.

Lemma foldr_max_init (c m : Z) (l : list Z) :
  foldr Z.max (Z.max c m) l = Z.max c (foldr Z.max m l).
Proof. induction l as [|x l IH]; simpl; [done|]. rewrite IH. lia. Qed.

Lemma find_max_count_foldr histo : forall m,
  find_max_count histo m = foldr Z.max m (to_u64 ∘ count <$> histo).
Proof.
  induction histo as [|b rest IH]; intros m; [done|].
  simpl. rewrite IH.
  destruct (Z.gtb_spec (to_u64 (count b)) m).
  - replace (to_u64 (count b)) with (Z.max (to_u64 (count b)) m) at 1 by lia.
    apply foldr_max_init.
  - replace m with (Z.max (to_u64 (count b)) m) at 1 by lia.
    apply foldr_max_init.
Qed.

(** While no count is negative, the count that scales the graph is the
    largest count of the table: no bin has more, and unless it is 0 some
    bin has exactly that many. *)
Theorem find_max_count_max (histo : list bin_t) :
  Forall (fun b => 0 <= count b <= INT_MAX) histo ->
  Forall (fun b => count b <= find_max_count histo 0) histo /\
  (find_max_count histo 0 = 0 \/
   exists b, b ∈ histo /\ count b = find_max_count histo 0).
Proof.
  intros Hcounts. rewrite find_max_count_foldr.
  induction Hcounts as [|b rest Hb _ [IHle IHin]].
  - split; [constructor|by left].
  - rewrite fmap_cons. simpl.
    rewrite to_u64_id by (unfold is_u64, UINT64_MAX, INT_MAX in *; lia).
    split.
    + constructor; [lia|].
      eapply Forall_impl; [exact IHle|]. simpl. intros; lia.
    + destruct (Z.max_spec (count b)
                  (foldr Z.max 0 (to_u64 ∘ count <$> rest)))
        as [[Hlt ->]|[Hge ->]].
      * destruct IHin as [Hz|(b' & Hin & Hb')]; [by left|].
        right. exists b'. split; [by right|done].
      * right. exists b. split; [by left|done].
Qed.

Lemma find_max_count_max_witness :
  let table := [mk_bin 30 9; mk_bin 50 0; mk_bin 100 12; mk_bin UINT64_MAX 1] in
  Forall (fun b => count b <= find_max_count table 0) table /\
  (find_max_count table 0 = 0 \/
   exists b, b ∈ table /\ count b = find_max_count table 0).
Proof.
  intros table. apply (find_max_count_max table).
  repeat constructor; by vm_compute.
Defined.

Section CumulativeColumn.

Variable log : float -> float.
Variable double_to_int : float -> Z.

Lemma print_histo_c_count a scale histo : forall i c m,
  row_c_count <$> (print_histo log double_to_int a scale i histo c m).1.1.1 =
  (fun k : nat => to_u64 (c + sum_counts (take k histo)))
    <$> seq 1 (length histo).
Proof.
  induction histo as [|b rest IH]; intros i c m; simpl; [done|].
  specialize (IH (i + 1) (to_u64 (c + count b))
                 (if i =? args_bins a ÷ 2 then c else m)).
  destruct (print_histo log double_to_int a scale (i + 1) rest
              (to_u64 (c + count b))
              (if i =? args_bins a ÷ 2 then c else m))
    as [[[rs c'] m'] calls'].
  simpl in *.
  change (list_fmap row_t Z row_c_count rs) with (row_c_count <$> rs).
  change (list_fmap nat Z ?f ?l) with (f <$> l).
  rewrite IH. f_equal.
  - f_equal. lia.
  - rewrite <- (fmap_S_seq 1), <- list_fmap_compose.
    apply list_fmap_ext. intros k x _. simpl.
    rewrite to_u64_add_l. f_equal. lia.
Qed.

End CumulativeColumn.

(** The cumulative count behind the "Cumulative" column of row [k]
    (counted from 1) is the sum, modulo 2^64, of the counts of the first
    [k] bins. *)
Theorem report_cumulative (log : float -> float) (double_to_int : float -> Z)
    (a : args_t) (start_tsc stop_tsc us : Z) (s : state_t) :
  row_c_count <$> rows (report log double_to_int a start_tsc stop_tsc us s) =
  (fun k : nat => cum_count (histo s) (Z.of_nat k))
    <$> seq 1 (length (histo s)).
Proof.
  destruct (report_rows log double_to_int a start_tsc stop_tsc us s)
    as (-> & _ & _).
  rewrite print_histo_c_count.
  apply list_fmap_ext. intros k x _. unfold cum_count.
  by rewrite Z.add_0_l, Nat2Z.id.
Qed.

(** ** The printed average *)

Lemma sum_between (l : list Z) :
  foldr Z.min UINT64_MAX l * Z.of_nat (length l) <= foldr Z.add 0 l /\
  foldr Z.add 0 l <= foldr Z.max 0 l * Z.of_nat (length l).
Proof.
  induction l as [|x l [IHmin IHmax]]; [done|].
  cbn [foldr length]. rewrite Nat2Z.inj_succ.
  set (n := Z.of_nat (length l)) in *.
  assert (0 <= n) by lia.
  split.
  - destruct (Z.min_spec x (foldr Z.min UINT64_MAX l)) as [[? ->]|[? ->]]; nia.
  - destruct (Z.max_spec x (foldr Z.max 0 l)) as [[? ->]|[? ->]]; nia.
Qed.

(** While neither the sum nor the number of the deltas of a nonempty run
    exceeds 64 bits, the printed average lies between the printed minimum
    and maximum. *)
Theorem average_between (a : args_t) (ds : list (Z * Z))
    (table : list bin_t) :
  has_sentinel table -> Forall (fun x => is_u64 x.2) ds ->
  ds <> [] ->
  foldr Z.add 0 ds.*2 <= UINT64_MAX ->
  Z.of_nat (length ds) <= UINT64_MAX ->
  exists s,
    analyze_all a ds (state_init a table) = Some s /\
    min s <= average s <= max s.
Proof.
  intros Hsent Hds Hne Hsum Hlen.
  destruct (analyze_all_stats_from a ds (state_init a table) Hsent Hds)
    as (s & Hrun & Hmin & Hmax & Hdsum & Hcnt);
    [simpl; lia|simpl; lia|by vm_compute|by vm_compute|].
  exists s. split; [done|]. simpl in Hmin, Hmax, Hdsum, Hcnt.
  pose proof (sum_between ds.*2) as [Hlo Hhi].
  rewrite length_fmap in Hlo, Hhi.
  assert (0 <= foldr Z.add 0 ds.*2) as Hnonneg.
  { clear -Hds. induction Hds as [|[t d] ds [Hd _] _ IH]; [done|].
    rewrite fmap_cons. simpl in *. lia. }
  assert (0 < Z.of_nat (length ds)) as Hpos by (destruct ds; [done|simpl; lia]).
  rewrite Z.add_0_l in Hdsum, Hcnt.
  rewrite to_u64_id in Hdsum by (unfold is_u64; lia).
  rewrite to_u64_id in Hcnt by (unfold is_u64; lia).
  unfold average. rewrite Hdsum, Hcnt, Hmin, Hmax. split.
  - apply Z.div_le_lower_bound; [lia|].
    pose proof (Z.le_min_l (foldr Z.min UINT64_MAX ds.*2) UINT64_MAX). nia.
  - apply Z.div_le_upper_bound; [lia|].
    pose proof (Z.le_max_l (foldr Z.max 0 ds.*2) 0). nia.
Qed.

Lemma average_between_witness :
  exists s,
    analyze_all args_init [(7, 12); (7, 9); (7, 1000000)]
      (state_init args_init [mk_bin 50 0; mk_bin UINT64_MAX 0]) = Some s /\
    min s <= average s <= max s.
Proof.
  apply (average_between args_init [(7, 12); (7, 9); (7, 1000000)]
           [mk_bin 50 0; mk_bin UINT64_MAX 0]).
  - reflexivity.
  - repeat constructor; by vm_compute.
  - done.
  - by vm_compute.
  - by vm_compute.
Defined.

(** ** The order of the outlier file *)

Lemma dump_outliers_dumped start t (buf : list outlier_t) :
  dump_outliers start t buf = outlier_line start t <$> dumped buf.
Proof.
  unfold dumped. induction buf as [|o buf IH]; simpl; [done|].
  rewrite filter_cons. destruct (Z.eqb_spec (when o) 0) as [Hz|Hnz].
  - by rewrite decide_False by (intros ?; done).
  - rewrite decide_True by done. by rewrite fmap_cons, IH.
Qed.

Lemma dumped_app (l k : list outlier_t) :
  dumped (l ++ k) = dumped l ++ dumped k.
Proof. apply filter_app. Qed.

Lemma dumped_zero (n : nat) : dumped (replicate n outlier_zero) = [].
Proof. induction n as [|n IH]; [done|]. simpl. exact IH. Qed.

Lemma ring_view_inv (buf V : list outlier_t) (p : Z) :
  0 <= p <= Z.of_nat (length buf) ->
  ring_view buf p = V ->
  buf = drop (length buf - Z.to_nat p) V ++ take (length buf - Z.to_nat p) V.
Proof.
  intros Hp <-. unfold ring_view.
  assert (length (drop (Z.to_nat p) buf) = (length buf - Z.to_nat p)%nat)
    as Hlen by apply length_drop.
  rewrite <- Hlen at 1. rewrite drop_app_length.
  rewrite <- Hlen. rewrite take_app_length.
  by rewrite take_drop.
Qed.

(** With outlier capture enabled, the outlier file lists the buffer in
    slot order.  While the run records no more outliers than the buffer
    holds, these are all the outliers in the order they happened, less
    those stamped with a TSC of 0.  After more, the file starts with the
    newest outliers, those recorded since the last wrap, followed by the
    older ones that have not been overwritten. *)
Theorem outlier_file_order (log : float -> float)
    (double_to_int : float -> Z) (a : args_t) (ds : list (Z * Z))
    (table : list bin_t) (start_tsc stop_tsc us : Z) :
  is_Some (args_outfile a) -> 0 < args_outbuf a ->
  has_sentinel table -> Forall (fun x => is_u64 x.2) ds ->
  let outs := as_outlier <$> outliers_of a ds in
  let n := length outs in
  let c := Z.to_nat (args_outbuf a) in
  let line := outlier_line start_tsc (tpns start_tsc stop_tsc us) in
  exists s,
    analyze_all a ds (state_init a table) = Some s /\
    let r := report log double_to_int a start_tsc stop_tsc us s in
    ((n <= c)%nat -> outfile_lines r = Some (line <$> dumped outs)) /\
    ((c < n)%nat ->
     outfile_lines r =
       Some (line <$> dumped (drop (n - n mod c) outs
                              ++ take (c - n mod c) (drop (n - c) outs)))).
Proof.
  intros Hfile Hcap Hsent Hds outs n c line.
  destruct (run_ring a ds table Hfile Hcap Hsent Hds)
    as (s & buf & Hrun & Hbuf & Hlen & Hobp & _ & Hview).
  exists s. split; [done|]. intros r.
  assert (outfile_lines r = Some (line <$> dumped buf)) as ->.
  { subst r line. unfold report, graph_scale, call_log. simpl.
    destruct (print_histo log double_to_int a _ 0 (histo s) 0 0)
      as [[[rs c'] m] calls].
    simpl. rewrite Hbuf. simpl. f_equal. apply dump_outliers_dumped. }
  assert (length (outliers_of a ds) = n) as Hn
    by (subst n outs; by rewrite length_fmap).
  rewrite Hn in Hobp, Hview. fold outs in Hview. fold c in Hview.
  assert (length buf = c) as Hc by lia.
  assert (0 <= obp s < args_outbuf a) as Hrange
    by (rewrite Hobp; apply Z.mod_pos_bound; lia).
  assert (Z.to_nat (obp s) = (n mod c)%nat) as Hp.
  { rewrite Hobp. replace (args_outbuf a) with (Z.of_nat c) by lia.
    rewrite <- Nat2Z.inj_mod. lia. }
  assert (0 < c)%nat as Hcpos by lia.
  pose proof (Nat.mod_upper_bound n c ltac:(lia)) as Hmod.
  pose proof (ring_view_inv buf _ (obp s) ltac:(lia) Hview) as Hbuf'.
  rewrite Hc, Hp in Hbuf'.
  split; intros Hcase.
  - rewrite drop_app_le in Hbuf' by (rewrite length_replicate; lia).
    rewrite drop_replicate in Hbuf'.
    destruct (decide (n = c)) as [Heq|Hne].
    + rewrite Heq, Nat.Div0.mod_same, Nat.sub_diag, Nat.sub_0_r in Hbuf'.
      simpl in Hbuf'.
      rewrite drop_ge, take_ge in Hbuf' by lia.
      by rewrite Hbuf'.
    + rewrite Nat.mod_small in Hbuf' by lia.
      rewrite drop_app_length' in Hbuf' by (rewrite length_replicate; lia).
      rewrite take_app_length' in Hbuf' by (rewrite length_replicate; lia).
      by rewrite Hbuf', dumped_app, dumped_zero, app_nil_r.
  - rewrite drop_app_ge in Hbuf' by (rewrite length_replicate; lia).
    rewrite length_replicate in Hbuf'.
    rewrite drop_drop in Hbuf'.
    replace (n - c + (c - n mod c))%nat with (n - n mod c)%nat in Hbuf' by lia.
    by rewrite Hbuf'.
Qed.

(** A buffer of three entries and five outliers: the file lists the
    fourth and the fifth, then the third. *)
Lemma outlier_file_order_witness :
  let a := mk_args 4 (Some "out") 50 10 3 0 1 79 in
  let ds := [(1, 100); (2, 20); (3, 300); (4, 400); (5, 500); (6, 600)] in
  let table := [mk_bin 30 0; mk_bin 50 0; mk_bin 100 0; mk_bin UINT64_MAX 0] in
  let outs := as_outlier <$> outliers_of a ds in
  let n := length outs in
  let c := Z.to_nat (args_outbuf a) in
  let line := outlier_line 0 (tpns 0 6000 1) in
  exists s,
    analyze_all a ds (state_init a table) = Some s /\
    let r := report (fun x => x) (fun _ => 0) a 0 6000 1 s in
    ((n <= c)%nat -> outfile_lines r = Some (line <$> dumped outs)) /\
    ((c < n)%nat ->
     outfile_lines r =
       Some (line <$> dumped (drop (n - n mod c) outs
                              ++ take (c - n mod c) (drop (n - c) outs)))).
Proof.
  intros a ds table.
  apply (outlier_file_order (fun x => x) (fun _ => 0) a ds table 0 6000 1).
  - by eexists.
  - reflexivity.
  - reflexivity.
  - repeat constructor; by vm_compute.
Defined.

(** ** A whole run *)





Lemma validity_checks_ge errflag a : errflag <= validity_checks errflag a.
Proof.
  unfold validity_checks.
  repeat match goal with |- context [if ?b then _ else _] => destruct b end;
    lia.
Qed.

(** A command line with [-h], [-o] or an option [getopt_long] does not
    know ends in the usage exit, whatever the other options are and
    whatever would have been measured. *)
Theorem main_rejects_option (log : float -> float)
    (double_to_int : float -> Z) (e : env_t) :
  forallb opt_accepted (env_opts e) = false ->
  main log double_to_int e = Exit_usage.
Proof.
  intros Hopts. apply main_exit_usage_checks.
  pose proof (args_parse_flag (env_opts e) args_init) as Hflag.
  rewrite Hopts in Hflag.
  pose proof (validity_checks_ge (args_parse (env_opts e) args_init).1
                (args_parse (env_opts e) args_init).2) as Hge.
  lia.
Qed.

(** [-o 500] after a valid [-b 8]. *)
Lemma main_rejects_option_witness :
  main (fun x => x) (fun _ => 0)
       (mk_env [opt_b 8; opt_o 500] (block_of 0 12) [] 0 6000 1)
  = Exit_usage.
Proof.
  apply (main_rejects_option (fun x => x) (fun _ => 0)
           (mk_env [opt_b 8; opt_o 500] (block_of 0 12) [] 0 6000 1)).
  reflexivity.
Defined.
